(** * Gravity page: a click-activated rigid-body simulation

    Shallow embedding of [src/javascript.js].  The script keeps three
    closure variables, [bodies], [activeSet] and [last], and reacts to two
    host callbacks: the animation frame ([step]) and the click listener,
    which first tries [activateElement] and then pushes every body away
    from the pointer.

    JavaScript numbers are IEEE binary64.  The program is written once over
    an interface of the number operations it uses, [JsNumber], and the
    interface is instantiated twice:
    - by [float], Rocq's primitive binary64 numbers, so that a concrete run
      can be replayed bit for bit with [vm_compute];
    - by [R], exact real arithmetic, in which the general theorems about
      inequalities are proved (rounding, infinities and NaN are outside
      that instance).
    Theorems that only follow the control flow are stated for every
    instance. *)

From Stdlib Require Import ZArith Reals Lra Psatz Floats.
From stdpp Require Import gmap strings list.

#[local] Set Warnings "-inexact-float".

(** ** Numbers *)

Class JsNumber (N : Type) := {
  num_of_Z : Z → N;          (* an integer literal *)
  num_add : N → N → N;
  num_sub : N → N → N;
  num_mul : N → N → N;
  num_div : N → N → N;
  num_neg : N → N;           (* unary minus *)
  num_lt : N → N → bool;     (* a < b *)
  num_eq : N → N → bool;     (* a === b *)
  num_truthy : N → bool;     (* ToBoolean: false on 0 and NaN *)
  Math_abs : N → N;
  Math_sqrt : N → N;
  Math_round : N → N;
  Math_min : N → N → N;
  Math_max : N → N → N
}.

Declare Scope js_scope.
Delimit Scope js_scope with js.
Notation "# z" := (num_of_Z z%Z) (at level 8, format "# z") : js_scope.
Notation "a + b" := (num_add a b) : js_scope.
Notation "a - b" := (num_sub a b) : js_scope.
Notation "a * b" := (num_mul a b) : js_scope.
Notation "a / b" := (num_div a b) : js_scope.
Notation "- a" := (num_neg a) : js_scope.
Notation "a <? b" := (num_lt a b) : js_scope.
Notation "a >? b" := (num_lt b a) : js_scope.
Notation "a === b" := (num_eq a b) (at level 70, no associativity) : js_scope.

(** [a || b] on numbers: [a] when it is truthy, else [b]. *)
Definition num_or {N} `{!JsNumber N} (a b : N) : N :=
  if num_truthy a then a else b.

(** A decimal literal [m / 10^k], such as [0.6 = decimal 6 10].  The
    quotient of two small integers is rounded once, so in binary64 it is
    the value the literal denotes. *)
Definition decimal {N} `{!JsNumber N} (m p10 : Z) : N := (#m / #p10)%js.

(** *** binary64 *)

Module F64.

(** An integer literal; exact below 2^53 in absolute value, which covers
    the literals of the script. *)
Definition of_Z (z : Z) : float :=
  match z with
  | Z0 => PrimFloat.zero
  | Zpos p => PrimFloat.of_uint63 (Uint63.of_Z (Zpos p))
  | Zneg p => PrimFloat.opp (PrimFloat.of_uint63 (Uint63.of_Z (Zpos p)))
  end.

Definition truthy (a : float) : bool :=
  negb (PrimFloat.is_zero a || PrimFloat.is_nan a).

(** [Math.min]: NaN if either argument is, and [-0] below [+0]. *)
Definition min (a b : float) : float :=
  if PrimFloat.is_nan a || PrimFloat.is_nan b then PrimFloat.nan
  else if PrimFloat.ltb a b then a
  else if PrimFloat.ltb b a then b
  else if PrimFloat.get_sign a then a else b.

Definition max (a b : float) : float :=
  if PrimFloat.is_nan a || PrimFloat.is_nan b then PrimFloat.nan
  else if PrimFloat.ltb a b then b
  else if PrimFloat.ltb b a then a
  else if PrimFloat.get_sign a then b else a.

(** [Math.round]: the nearest integer, ties towards +infinity; zeros,
    infinities and NaN are returned as they are, and a result of zero
    keeps the sign of the argument. *)
Definition round (a : float) : float :=
  match Prim2SF a with
  | S754_finite s m e =>
      if (0 <=? e)%Z then a
      else
        let sm := if s then Zneg m else Zpos m in
        let r := ((2 * sm + 2 ^ (- e)) / 2 ^ (1 - e))%Z in
        if (r =? 0)%Z then (if s then PrimFloat.neg_zero else PrimFloat.zero)
        else of_Z r
  | _ => a
  end.

End F64.

#[export] Instance float_number : JsNumber float := {|
  num_of_Z := F64.of_Z;
  num_add := PrimFloat.add;
  num_sub := PrimFloat.sub;
  num_mul := PrimFloat.mul;
  num_div := PrimFloat.div;
  num_neg := PrimFloat.opp;
  num_lt := PrimFloat.ltb;
  num_eq := PrimFloat.eqb;
  num_truthy := F64.truthy;
  Math_abs := PrimFloat.abs;
  Math_sqrt := PrimFloat.sqrt;
  Math_round := F64.round;
  Math_min := F64.min;
  Math_max := F64.max
|}.

(** *** Exact real arithmetic *)

Module Exact.

Definition ltb (a b : R) : bool := if Rlt_dec a b then true else false.
Definition eqb (a b : R) : bool := if Req_dec_T a b then true else false.
Definition truthy (a : R) : bool := negb (eqb a 0).
Definition round (a : R) : R := IZR (Zfloor (a + / 2)).

End Exact.

#[export] Instance real_number : JsNumber R := {|
  num_of_Z := IZR;
  num_add := Rplus;
  num_sub := Rminus;
  num_mul := Rmult;
  num_div := Rdiv;
  num_neg := Ropp;
  num_lt := Exact.ltb;
  num_eq := Exact.eqb;
  num_truthy := Exact.truthy;
  Math_abs := Rabs;
  Math_sqrt := R_sqrt.sqrt;
  Math_round := Exact.round;
  Math_min := Rmin;
  Math_max := Rmax
|}.

(** ** The page

    A DOM element is its identity ([node]), its tag and its parent chain.
    What the browser computes for it (computed style, bounding rectangle,
    scroll offsets, window and document sizes) is read from a [Host]
    snapshot at each callback. *)

#[local] Set Warnings "-register-all".
Inductive Element := mkElement {
  node : positive;
  tagName : string;
  parentElement : option Element
}.

Record ComputedStyle := mkComputedStyle {
  display : string;
  visibility : string;
  opacity : string
}.

Record DOMRect (N : Type) := mkDOMRect {
  rect_left : N;
  rect_top : N;
  rect_width : N;
  rect_height : N
}.
Arguments mkDOMRect {N}.
Arguments rect_left {N}.
Arguments rect_top {N}.
Arguments rect_width {N}.
Arguments rect_height {N}.

Record Host (N : Type) := mkHost {
  scrollX : N;                  (* window.scrollX *)
  scrollY : N;
  innerWidth : N;               (* window.innerWidth *)
  innerHeight : N;
  scrollWidth : N;              (* document.documentElement.scrollWidth *)
  scrollHeight : N;
  getComputedStyle : Element → ComputedStyle;
  getBoundingClientRect : Element → DOMRect N
}.
Arguments mkHost {N}.
Arguments scrollX {N}.
Arguments scrollY {N}.
Arguments innerWidth {N}.
Arguments innerHeight {N}.
Arguments scrollWidth {N}.
Arguments scrollHeight {N}.
Arguments getComputedStyle {N}.
Arguments getBoundingClientRect {N}.

(** A value assigned to a property of [el.style]: a keyword, or a number
    followed by ['px']. *)
Inductive CssValue (N : Type) :=
  | Keyword (s : string)
  | Px (n : N).
Arguments Keyword {N}.
Arguments Px {N}.

(** The object pushed on [bodies]. *)
Record Body (N : Type) := mkBody {
  el : Element;
  x : N;
  y : N;
  vx : N;
  vy : N;
  w : N;
  h : N
}.
Arguments mkBody {N}.
Arguments el {N}.
Arguments x {N}.
Arguments y {N}.
Arguments vx {N}.
Arguments vy {N}.
Arguments w {N}.
Arguments h {N}.

(** The script's variables, the inline styles it has written (by element,
    then by property), and the number of animation frames it has asked
    for. *)
Record State (N : Type) := mkState {
  bodies : list (Body N);
  activeSet : gset positive;
  last : N;
  styles : gmap positive (gmap string (CssValue N));
  frames_requested : nat
}.
Arguments mkState {N}.
Arguments bodies {N}.
Arguments activeSet {N}.
Arguments last {N}.
Arguments styles {N}.
Arguments frames_requested {N}.

Record MouseEvent (N : Type) := mkMouseEvent {
  target : Element;
  clientX : N;
  clientY : N
}.
Arguments mkMouseEvent {N}.
Arguments target {N}.
Arguments clientX {N}.
Arguments clientY {N}.

Definition excludeTags : gset string :=
  {[ "HTML"; "HEAD"; "META"; "TITLE"; "LINK"; "SCRIPT"; "STYLE"; "BODY" ]}.

(** ** The engine *)

Section Engine.
Context {N : Type} `{!JsNumber N}.
Local Open Scope js_scope.

Definition GRAVITY : N := #2000.
Definition BOUNCE : N := decimal 6 10.

(** Assignments to the fields of a body. *)
Definition set_x (v : N) (b : Body N) : Body N :=
  mkBody (el b) v (y b) (vx b) (vy b) (w b) (h b).
Definition set_y (v : N) (b : Body N) : Body N :=
  mkBody (el b) (x b) v (vx b) (vy b) (w b) (h b).
Definition set_vx (v : N) (b : Body N) : Body N :=
  mkBody (el b) (x b) (y b) v (vy b) (w b) (h b).
Definition set_vy (v : N) (b : Body N) : Body N :=
  mkBody (el b) (x b) (y b) (vx b) v (w b) (h b).

(** [el.style[prop] = v] *)
Definition set_style (e : Element) (prop : string) (v : CssValue N)
    (css : gmap positive (gmap string (CssValue N)))
    : gmap positive (gmap string (CssValue N)) :=
  <[node e := <[prop := v]> (default ∅ (css !! node e))]> css.

(** *** [step]: lines 17-49 *)

(** Line 18. *)
Definition frame_dt (now last0 : N) : N :=
  Math_min (decimal 5 100) ((now - last0) / #1000).

Definition pageWidth (host : Host N) : N :=
  Math_max (scrollWidth host) (innerWidth host).
Definition pageHeight (host : Host N) : N :=
  Math_max (scrollHeight host) (innerHeight host).

(** Lines 26-28. *)
Definition integrate (dt : N) (b : Body N) : Body N :=
  let b := set_vy (vy b + GRAVITY * dt) b in
  let b := set_x (x b + vx b * dt) b in
  let b := set_y (y b + vy b * dt) b in
  b.

(** Lines 31-37. *)
Definition floor_collision (page_h : N) (b : Body N) : Body N :=
  if y b + h b >? page_h then
    let b := set_y (page_h - h b) b in
    let b := set_vy (- vy b * BOUNCE) b in
    let b := set_vx (vx b * decimal 8 10) b in
    if Math_abs (vy b) <? #30 then set_vy #0 b else b
  else b.

(** Line 40. *)
Definition left_wall (b : Body N) : Body N :=
  if x b <? #0 then
    let b := set_x #0 b in
    set_vx (- vx b * BOUNCE) b
  else b.

(** Line 41. *)
Definition right_wall (page_w : N) (b : Body N) : Body N :=
  if x b + w b >? page_w then
    let b := set_x (page_w - w b) b in
    set_vx (- vx b * BOUNCE) b
  else b.

(** Lines 26-41: what one pass of the [forEach] callback does to [b]. *)
Definition step_body (dt page_w page_h : N) (b : Body N) : Body N :=
  let b := integrate dt b in
  let b := floor_collision page_h b in
  let b := left_wall b in
  let b := right_wall page_w b in
  b.

(** Lines 44-45. *)
Definition write_back (b : Body N)
    (css : gmap positive (gmap string (CssValue N)))
    : gmap positive (gmap string (CssValue N)) :=
  let css := set_style (el b) "left" (Px (Math_round (x b))) css in
  let css := set_style (el b) "top" (Px (Math_round (y b))) css in
  css.

(** Lines 24-46: the [forEach] over [bodies], in order. *)
Fixpoint step_bodies (dt page_w page_h : N) (bs : list (Body N))
    (css : gmap positive (gmap string (CssValue N)))
    : list (Body N) * gmap positive (gmap string (CssValue N)) :=
  match bs with
  | [] => ([], css)
  | b :: rest =>
      let b' := step_body dt page_w page_h b in
      let css := write_back b' css in
      let '(rest', css) := step_bodies dt page_w page_h rest css in
      (b' :: rest', css)
  end.

(** The frame callback. *)
Definition step (host : Host N) (now : N) (st : State N) : State N :=
  let dt := frame_dt now (last st) in
  let '(bs, css) :=
    step_bodies dt (pageWidth host) (pageHeight host) (bodies st) (styles st) in
  mkState bs (activeSet st) now css (S (frames_requested st)).

(** Lines 9-15 and 51: the state when the listener for [DOMContentLoaded]
    returns; [t0] is what [performance.now()] gave. *)
Definition init (t0 : N) : State N := mkState [] ∅ t0 ∅ 1.

(** *** [activateElement]: lines 54-87 *)

Definition not_rendered (cs : ComputedStyle) : bool :=
  String.eqb (display cs) "none"
  || String.eqb (visibility cs) "hidden"
  || String.eqb (opacity cs) "0".

(** Lines 63-72. *)
Definition detach (host : Host N) (e : Element) (rect : DOMRect N)
    (css : gmap positive (gmap string (CssValue N)))
    : gmap positive (gmap string (CssValue N)) :=
  let css := set_style e "boxSizing" (Keyword "border-box") css in
  let css := set_style e "position" (Keyword "absolute") css in
  let css := set_style e "left" (Px (rect_left rect + scrollX host)) css in
  let css := set_style e "top" (Px (rect_top rect + scrollY host)) css in
  let css := set_style e "width" (Px (rect_width rect)) css in
  let css := set_style e "height" (Px (rect_height rect)) css in
  let css := set_style e "margin" (Keyword "0") css in
  let css := set_style e "transition" (Keyword "none") css in
  let css := set_style e "willChange" (Keyword "left, top") css in
  css.

(** The argument is [None] for [null]; so is the result. *)
Definition activateElement (host : Host N) (arg : option Element)
    (st : State N) : option (Body N) * State N :=
  match arg with
  | None => (None, st)
  | Some e =>
      if bool_decide (node e ∈ activeSet st) then (None, st)
      else if bool_decide (tagName e ∈ excludeTags) then (None, st)
      else
        let cs := getComputedStyle host e in
        if not_rendered cs then (None, st)
        else
          let rect := getBoundingClientRect host e in
          if (rect_width rect === #0) || (rect_height rect === #0)
          then (None, st)
          else
            let css := detach host e rect (styles st) in
            let body :=
              mkBody e (rect_left rect + scrollX host)
                (rect_top rect + scrollY host) #0 #30
                (rect_width rect) (rect_height rect) in
            (Some body,
             mkState (bodies st ++ [body]) ({[node e]} ∪ activeSet st)
               (last st) css (frames_requested st))
  end.

(** *** The click listener: lines 90-108 *)

(** Line 94: climb while the tag is excluded. *)
Fixpoint closest_included (e : Element) : option Element :=
  match e with
  | mkElement _ tag parent =>
      if bool_decide (tag ∈ excludeTags) then
        match parent with
        | Some p => closest_included p
        | None => None
        end
      else Some e
  end.

(** Line 103. *)
Definition impulse_dist (dx dy : N) : N :=
  num_or (Math_sqrt (dx * dx + dy * dy)) #1.

(** Line 104. *)
Definition impulse_force (dist : N) : N :=
  Math_min #3000 (#60000 / (dist + #20)).

(** Lines 99-106: the impulse on one body from the point [(ox, oy)]. *)
Definition impulse_body (ox oy : N) (b : Body N) : Body N :=
  let cx := x b + w b / #2 in
  let cy := y b + h b / #2 in
  let dx := cx - ox in
  let dy := cy - oy in
  let dist := impulse_dist dx dy in
  let force := impulse_force dist in
  let b := set_vx (vx b + (dx / dist) * (force / #1000)) b in
  let b := set_vy (vy b + (dy / dist) * (force / #1000)) b in
  b.

(** Lines 98-107: the impulse pass over [bodies]. *)
Definition applyRadialImpulse (ox oy : N) (st : State N) : State N :=
  mkState (impulse_body ox oy <$> bodies st) (activeSet st) (last st)
    (styles st) (frames_requested st).

Definition on_click (host : Host N) (e : MouseEvent N) (st : State N)
    : State N :=
  let st :=
    match closest_included (target e) with
    | Some e' => snd (activateElement host (Some e') st)
    | None => st
    end in
  applyRadialImpulse (clientX e) (clientY e) st.

End Engine.

(** [el.style[prop]], as last written by the script. *)
Definition style_of {N} (css : gmap positive (gmap string (CssValue N)))
    (e : Element) (prop : string) : option (CssValue N) :=
  css !! node e ≫= λ m, m !! prop.

(** The tests of lines 55-61 on a non-null element, as one proposition:
    already active, excluded tag, not rendered, or no width or height. *)
Definition rejected {N} `{!JsNumber N} (host : Host N) (e : Element)
    (st : State N) : Prop :=
  node e ∈ activeSet st
  ∨ tagName e ∈ excludeTags
  ∨ display (getComputedStyle host e) = "none"
  ∨ visibility (getComputedStyle host e) = "hidden"
  ∨ opacity (getComputedStyle host e) = "0"
  ∨ (rect_width (getBoundingClientRect host e) === #0)%js = true
  ∨ (rect_height (getBoundingClientRect host e) === #0)%js = true.

(** The element and its ancestors, nearest first: the elements line 94
    can visit from [e]. *)
Fixpoint ancestors_or_self (e : Element) : list Element :=
  match e with
  | mkElement _ _ parent =>
      e :: match parent with
           | Some p => ancestors_or_self p
           | None => []
           end
  end.

(** The identities of the elements the bodies stand for, in order. *)
Definition body_nodes {N} (bs : list (Body N)) : list positive :=
  (λ b, node (el b)) <$> bs.

(** The states the page can be in: the initial one, then any sequence of
    frames and clicks, each with whatever the host reports at that time. *)
Inductive reachable {N} `{!JsNumber N} : State N → Prop :=
  | reach_init (t0 : N) : reachable (init t0)
  | reach_step (host : Host N) (now : N) (st : State N) :
      reachable st → reachable (step host now st)
  | reach_click (host : Host N) (e : MouseEvent N) (st : State N) :
      reachable st → reachable (on_click host e st).

(** One body per activated element, and only elements the activation
    accepts: the identities of the bodies are distinct and are the members
    of [activeSet]; no body stands for an element with an excluded tag or
    has a width or height [=== 0]. *)
Definition tidy {N} `{!JsNumber N} (st : State N) : Prop :=
  NoDup (body_nodes (bodies st))
  ∧ activeSet st = list_to_set (body_nodes (bodies st))
  ∧ Forall (λ b, (tagName (el b) ∉ excludeTags)
                 ∧ (w b === #0)%js = false ∧ (h b === #0)%js = false)
      (bodies st).

(** Every body's element still carries what lines 65-69 wrote for it:
    [position: absolute] and the body's width and height. *)
Definition dressed {N} (st : State N) : Prop :=
  Forall (λ b,
            style_of (styles st) (el b) "position" = Some (Keyword "absolute")
            ∧ style_of (styles st) (el b) "width" = Some (Px (w b))
            ∧ style_of (styles st) (el b) "height" = Some (Px (h b)))
    (bodies st).

(** ** Scenarios *)

Definition html_el : Element := mkElement 1 "HTML" None.
Definition body_el : Element := mkElement 2 "BODY" (Some html_el).
Definition div_el : Element := mkElement 3 "DIV" (Some body_el).

Section Scenarios.
Context {N : Type} `{!JsNumber N}.
Local Open Scope js_scope.

(** A 50 x 50 box at (100, 0), as [activateElement] leaves it. *)
Definition falling : Body N := mkBody div_el #100 #0 #0 #30 #50 #50.

(** The same box just integrated past the bottom of a page 600 high. *)
Definition landing : Body N := mkBody div_el #100 #580 #40 #250 #50 #50.

(** A box 100 wide, to be put on a page 50 wide. *)
Definition wide : Body N := mkBody div_el #0 #0 #0 #30 #100 #10.

(** A 1 x 2 box at the origin: its centre is (0.5, 1). *)
Definition sliver : Body N := mkBody div_el #0 #0 #0 #0 #1 #2.

(** A 2 x 2 box at the origin, moving: its centre is (1, 1). *)
Definition square : Body N := mkBody div_el #0 #0 #5 #7 #2 #2.

(** A page 800 x 600, not scrolled, on which every element is shown as a
    50 x 50 box at (100, 0). *)
Definition host0 : Host N :=
  mkHost #0 #0 #800 #600 #800 #600
    (λ _, mkComputedStyle "block" "visible" "1")
    (λ _, mkDOMRect #100 #0 #50 #50).

End Scenarios.

(** In binary64: a 50 x 50 box whose left edge is one unit in the last
    place right of 100, so that its centre is that much right of 125. *)
Definition grazed : Body float :=
  mkBody div_el 0x1.9000000000001p+6%float 0%float 2.5%float 30%float
    50%float 50%float.

(** ** The literals and two replays in binary64 *)

Lemma decimal_literals_binary64 :
  @decimal float _ 6 10 = 0.6%float
  ∧ @decimal float _ 8 10 = 0.8%float
  ∧ @decimal float _ 5 100 = 0.05%float
  ∧ @decimal float _ 1 10 = 0.1%float.
Proof. vm_compute. repeat split. Qed.

Lemma decimal_literals_real :
  @decimal R _ 6 10 = (6 / 10)%R ∧ @decimal R _ 8 10 = (8 / 10)%R
  ∧ @decimal R _ 5 100 = (5 / 100)%R ∧ @decimal R _ 1 10 = (1 / 10)%R.
Proof. repeat split. Qed.

(** A frame 16 ms after the previous one. *)
Lemma frame_dt_binary64 :
  @frame_dt float _ 1016%float 1000%float = 0.016%float
  ∧ @frame_dt float _ 2000%float 1000%float = 0.05%float.
Proof. vm_compute. repeat split. Qed.

(** A click on the centre of the square leaves it as it was. *)
Lemma impulse_at_centre_binary64 :
  impulse_body (#1)%js (#1)%js (@square float _) = @square float _.
Proof. vm_compute. reflexivity. Qed.

(** ** Reading the tests in exact arithmetic *)

Lemma real_lt_true (a b : R) : (a <? b)%js = true ↔ (a < b)%R.
Proof.
  cbn. unfold Exact.ltb. destruct (Rlt_dec a b); split; auto; discriminate.
Qed.

Lemma real_lt_false (a b : R) : (a <? b)%js = false ↔ (b <= a)%R.
Proof.
  cbn. unfold Exact.ltb.
  destruct (Rlt_dec a b); split; auto; try discriminate; lra.
Qed.

Lemma real_truthy (a : R) : num_truthy a = true ↔ a ≠ 0%R.
Proof.
  cbn. unfold Exact.truthy, Exact.eqb.
  destruct (Req_dec_T a 0); cbn; split; auto; try discriminate; congruence.
Qed.

Lemma real_round_int (z : Z) : Math_round (IZR z) = IZR z.
Proof.
  cbn. unfold Exact.round. f_equal. apply Zfloor_eq. lra.
Qed.

(** Case analysis on the comparisons of reals left in the goal, innermost
    first; a branch whose tests contradict each other is closed at once. *)
Ltac real_flat t :=
  lazymatch t with
  | context [Rlt_dec _ _] => fail
  | context [Rle_dec _ _] => fail
  | context [Req_dec_T _ _] => fail
  | _ => idtac
  end.

Ltac real_case :=
  match goal with
  | |- context [Rlt_dec ?a ?b] =>
      real_flat a; real_flat b; destruct (Rlt_dec a b)
  | |- context [Rle_dec ?a ?b] =>
      real_flat a; real_flat b; destruct (Rle_dec a b)
  | |- context [Req_dec_T ?a ?b] =>
      real_flat a; real_flat b; destruct (Req_dec_T a b)
  end;
  cbv beta iota; try lra.

Ltac real_cases := repeat real_case.

(** Unfold the engine down to operations on [R]. *)
Ltac real_unfold :=
  cbv beta iota zeta delta
    [step_body integrate floor_collision left_wall right_wall
     impulse_body impulse_dist impulse_force frame_dt num_or decimal
     GRAVITY BOUNCE set_x set_y set_vx set_vy
     el x y vx vy w h
     falling landing wide sliver square
     num_of_Z num_add num_sub num_mul num_div num_neg num_lt num_eq
     num_truthy Math_abs Math_sqrt Math_round Math_min Math_max
     real_number Exact.ltb Exact.eqb Exact.truthy].

(** ** Writing to [el.style] *)

Section Styles.
Context {N : Type}.
Implicit Types (css : gmap positive (gmap string (CssValue N))).

Lemma style_of_set_eq css e prop v :
  style_of (set_style e prop v css) e prop = Some v.
Proof.
  unfold style_of, set_style. rewrite lookup_insert_eq. cbn.
  apply lookup_insert_eq.
Qed.

Lemma style_of_set_other_prop css e prop prop' v :
  prop ≠ prop' →
  style_of (set_style e prop v css) e prop' = style_of css e prop'.
Proof.
  intros Hne. unfold style_of, set_style. rewrite lookup_insert_eq. cbn.
  rewrite lookup_insert_ne by done.
  destruct (css !! node e); cbn; [done | apply lookup_empty].
Qed.

End Styles.

(** ** The frame callback, for every number instance *)

Section StepGeneric.
Context {N : Type} `{!JsNumber N}.
Local Open Scope js_scope.
Implicit Types (b : Body N) (dt page_w page_h : N).

Lemma integrate_fields dt b :
  vy (integrate dt b) = vy b + GRAVITY * dt
  ∧ x (integrate dt b) = x b + vx b * dt
  ∧ y (integrate dt b) = y b + (vy b + GRAVITY * dt) * dt
  ∧ vx (integrate dt b) = vx b
  ∧ w (integrate dt b) = w b ∧ h (integrate dt b) = h b
  ∧ el (integrate dt b) = el b.
Proof. repeat split. Qed.

Lemma floor_collision_hit page_h b :
  (y b + h b >? page_h) = true →
  floor_collision page_h b =
    mkBody (el b) (x b) (page_h - h b) (vx b * decimal 8 10)
      (if Math_abs (- vy b * BOUNCE) <? #30 then #0 else - vy b * BOUNCE)
      (w b) (h b).
Proof.
  intros Hhit. unfold floor_collision. rewrite Hhit. cbn.
  destruct (Math_abs (- vy b * BOUNCE) <? #30); reflexivity.
Qed.

Lemma floor_collision_miss page_h b :
  (y b + h b >? page_h) = false → floor_collision page_h b = b.
Proof. intros Hmiss. unfold floor_collision. now rewrite Hmiss. Qed.

Lemma left_wall_frame b :
  y (left_wall b) = y b ∧ vy (left_wall b) = vy b
  ∧ w (left_wall b) = w b ∧ h (left_wall b) = h b
  ∧ el (left_wall b) = el b.
Proof. unfold left_wall. destruct (x b <? #0); repeat split. Qed.

Lemma right_wall_frame page_w b :
  y (right_wall page_w b) = y b ∧ vy (right_wall page_w b) = vy b
  ∧ w (right_wall page_w b) = w b ∧ h (right_wall page_w b) = h b
  ∧ el (right_wall page_w b) = el b.
Proof. unfold right_wall. destruct (x b + w b >? page_w); repeat split. Qed.

Lemma floor_collision_frame page_h b :
  x (floor_collision page_h b) = x b
  ∧ w (floor_collision page_h b) = w b ∧ h (floor_collision page_h b) = h b
  ∧ el (floor_collision page_h b) = el b.
Proof.
  destruct (y b + h b >? page_h) eqn:Htest.
  - rewrite floor_collision_hit by assumption. repeat split.
  - rewrite floor_collision_miss by assumption. repeat split.
Qed.

(** The walls leave the vertical state of the floor phase as it is. *)
Lemma step_body_vertical dt page_w page_h b :
  y (step_body dt page_w page_h b)
    = y (floor_collision page_h (integrate dt b))
  ∧ vy (step_body dt page_w page_h b)
    = vy (floor_collision page_h (integrate dt b)).
Proof.
  unfold step_body. cbv zeta.
  destruct (right_wall_frame page_w
              (left_wall (floor_collision page_h (integrate dt b))))
    as (-> & -> & _).
  destruct (left_wall_frame (floor_collision page_h (integrate dt b)))
    as (-> & -> & _).
  split; reflexivity.
Qed.

Lemma step_body_size dt page_w page_h b :
  w (step_body dt page_w page_h b) = w b
  ∧ h (step_body dt page_w page_h b) = h b
  ∧ el (step_body dt page_w page_h b) = el b.
Proof.
  unfold step_body. cbv zeta.
  destruct (right_wall_frame page_w
              (left_wall (floor_collision page_h (integrate dt b))))
    as (_ & _ & -> & -> & ->).
  destruct (left_wall_frame (floor_collision page_h (integrate dt b)))
    as (_ & _ & -> & -> & ->).
  destruct (floor_collision_frame page_h (integrate dt b))
    as (_ & -> & -> & ->).
  repeat split.
Qed.

End StepGeneric.

(** C2.  Floor collision.  Let [b1] be the body as integrated in this
    step.  If the test [y + h > pageHeight] holds of [b1], the floor branch
    sets [y = pageHeight - h], multiplies [vx] by 0.8 and sets [vy] to
    [-vy * BOUNCE], then to 0 if the absolute value of that is below 30;
    [BOUNCE] is 0.6; the walls that follow keep [y] and [vy], so these are
    the values at the end of the step.  If the test fails the branch
    returns [b1] as it is; in exact arithmetic the test fails exactly when
    [y + h <= pageHeight]. *)
Theorem floor_collision_spec :
  (∀ (N : Type) (JN : JsNumber N) (dt page_w page_h : N) (b : Body N),
     let b1 := integrate dt b in
     let b2 := floor_collision page_h b1 in
     let reflected := (- vy b1 * BOUNCE)%js in
     BOUNCE = decimal 6 10
     ∧ ((y b1 + h b1 >? page_h)%js = true →
          y b2 = (page_h - h b1)%js
          ∧ vx b2 = (vx b1 * decimal 8 10)%js
          ∧ vy b2 = (if (Math_abs reflected <? #30)%js then (#0)%js
                     else reflected)
          ∧ x b2 = x b1 ∧ w b2 = w b1 ∧ h b2 = h b1 ∧ el b2 = el b1
          ∧ y (step_body dt page_w page_h b) = (page_h - h b1)%js
          ∧ vy (step_body dt page_w page_h b) = vy b2)
     ∧ ((y b1 + h b1 >? page_h)%js = false → b2 = b1))
  ∧ (∀ (page_h : R) (b1 : Body R),
       let reflected := (- vy b1 * (6 / 10))%R in
       ((y b1 + h b1 > page_h)%R →
          y (floor_collision page_h b1) = (page_h - h b1)%R
          ∧ vx (floor_collision page_h b1) = (vx b1 * (8 / 10))%R
          ∧ ((Rabs reflected < 30)%R → vy (floor_collision page_h b1) = 0%R)
          ∧ ((30 <= Rabs reflected)%R →
               vy (floor_collision page_h b1) = reflected))
       ∧ ((y b1 + h b1 <= page_h)%R → floor_collision page_h b1 = b1)).
Proof.
  split.
  - intros N JN dt page_w page_h b b1 b2 reflected.
    split; [reflexivity |]. split.
    + intros Hhit.
      destruct (step_body_vertical dt page_w page_h b) as [Hy Hvy].
      fold b1 in Hy, Hvy. fold b2 in Hy, Hvy. rewrite Hy, Hvy.
      subst b2. rewrite (floor_collision_hit page_h b1 Hhit). cbn.
      repeat split.
    + intros Hmiss. apply floor_collision_miss, Hmiss.
  - intros page_h b1 reflected. split.
    + intros Hhit. apply Rgt_lt, real_lt_true in Hhit.
      rewrite (floor_collision_hit page_h b1 Hhit).
      cbn [y vx vy]. split; [reflexivity |]. split; [reflexivity |].
      change (- vy b1 * BOUNCE)%js with reflected.
      split; intros Habs;
        destruct (Math_abs reflected <? #30)%js eqn:Htest;
        try reflexivity; exfalso.
      * apply real_lt_false in Htest.
        change (30 <= Rabs reflected)%R in Htest. lra.
      * apply real_lt_true in Htest.
        change (Rabs reflected < 30)%R in Htest. lra.
    + intros Hmiss. apply floor_collision_miss, real_lt_false, Hmiss.
Qed.

(** The bounce of the specification, replayed in binary64: a body
    integrated to [y = 580] with [h = 50], [vy = 250], [vx = 40] on a page
    600 high ends the floor branch at [y = 550], [vy = -150], [vx = 32]. *)
Lemma floor_collision_spec_witness :
  let b2 := floor_collision (#600)%js (integrate (#0)%js (@landing float _)) in
  y b2 = 550%float ∧ vx b2 = 32%float ∧ vy b2 = (-150)%float.
Proof.
  cbv zeta.
  destruct floor_collision_spec as (Hgen & _).
  destruct (Hgen float _ (#0)%js (#800)%js (#600)%js landing)
    as (_ & Hhit & _).
  destruct Hhit as (Hy & Hvx & Hvy & _); [vm_compute; reflexivity |].
  rewrite Hy, Hvx, Hvy. vm_compute. repeat split.
Defined.

(** C4.  Walls.  Let [b2] be the body after integration and the floor
    branch.  The left test [x < 0] is made on [b2]: when it holds, [x]
    becomes 0 and [vx] becomes [-vx * BOUNCE]; otherwise nothing changes.
    The right test [x + w > pageWidth] is made once, on the result [b3] of
    the left wall: when it holds, [x] becomes [pageWidth - w] and [vx]
    becomes [-vx * BOUNCE]; otherwise nothing changes.  The step is the
    composition floor, left, right, and nothing runs after the right wall.
    The floor branch does not touch [x] or [w], the walls do not touch [y],
    [vy] or [h]. *)
Theorem walls_spec :
  ∀ (N : Type) (JN : JsNumber N) (dt page_w page_h : N) (b : Body N),
    let b2 := floor_collision page_h (integrate dt b) in
    let b3 := left_wall b2 in
    let b4 := right_wall page_w b3 in
    step_body dt page_w page_h b = b4
    ∧ ((x b2 <? #0)%js = true →
         x b3 = (#0)%js ∧ vx b3 = (- vx b2 * BOUNCE)%js)
    ∧ ((x b2 <? #0)%js = false → b3 = b2)
    ∧ ((x b3 + w b3 >? page_w)%js = true →
         x b4 = (page_w - w b3)%js ∧ vx b4 = (- vx b3 * BOUNCE)%js)
    ∧ ((x b3 + w b3 >? page_w)%js = false → b4 = b3)
    ∧ (x b2 = x (integrate dt b) ∧ w b2 = w b)
    ∧ (y b3 = y b2 ∧ vy b3 = vy b2 ∧ w b3 = w b2 ∧ h b3 = h b2)
    ∧ (y b4 = y b2 ∧ vy b4 = vy b2 ∧ w b4 = w b2 ∧ h b4 = h b2).
Proof.
  intros N JN dt page_w page_h b b2 b3 b4.
  split; [reflexivity |].
  split; [intros Hl; subst b3; unfold left_wall; rewrite Hl; split; reflexivity |].
  split; [intros Hl; subst b3; unfold left_wall; now rewrite Hl |].
  split; [intros Hr; subst b4; unfold right_wall; rewrite Hr; split; reflexivity |].
  split; [intros Hr; subst b4; unfold right_wall; now rewrite Hr |].
  destruct (floor_collision_frame page_h (integrate dt b)) as (Hx & Hw & _).
  destruct (left_wall_frame b2) as (Hy3 & Hvy3 & Hw3 & Hh3 & _).
  destruct (right_wall_frame page_w b3) as (Hy4 & Hvy4 & Hw4 & Hh4 & _).
  fold b2 in Hx, Hw. fold b3 in Hy3, Hvy3, Hw3, Hh3.
  fold b4 in Hy4, Hvy4, Hw4, Hh4.
  change (w (integrate dt b)) with (w b) in Hw.
  repeat split; congruence.
Qed.

(** Both walls in one step, in binary64: the box 100 wide on a page 50
    wide, pushed to [x = -8] by [vx = -256] over 1/32 s, is put at 0 by the
    left wall with [vx = 153.6], then at [50 - 100] by the right wall with
    that [vx] reflected again. *)
Lemma walls_spec_witness :
  let b := set_vx (#(-256))%js (@wide float _) in
  let b3 := left_wall (floor_collision (#600)%js (integrate (decimal 1 32) b)) in
  (x b3 = 0%float ∧ vx b3 = (256 * 0.6)%float)
  ∧ x (step_body (decimal 1 32) (#50)%js (#600)%js b) = (-50)%float
  ∧ vx (step_body (decimal 1 32) (#50)%js (#600)%js b)
    = (- (256 * 0.6) * 0.6)%float.
Proof.
  cbv zeta.
  destruct (walls_spec float _ (decimal 1 32) (#50)%js (#600)%js
              (set_vx (#(-256))%js wide))
    as (Hstep & Hleft & _ & Hright & _).
  destruct Hleft as (Hx3 & Hvx3); [vm_compute; reflexivity |].
  destruct Hright as (Hx4 & Hvx4); [vm_compute; reflexivity |].
  rewrite Hstep, Hx3, Hvx3, Hx4, Hvx4. vm_compute. repeat split.
Defined.

(** ** The scenario of the specification: one frame of 0.1 s *)

Lemma falling_step_real :
  step_body (decimal 1 10) (#800)%js (#600)%js (@falling R _)
  = mkBody div_el 100%R 23%R 0%R 230%R 50%R 50%R.
Proof.
  real_unfold. real_cases; try lra. f_equal; lra.
Qed.

Lemma falling_no_floor_real :
  (y (integrate (decimal 1 10) (@falling R _)) + h (@falling R _) >? #600)%js
  = false.
Proof. apply real_lt_false. real_unfold. lra. Qed.

(** C3.  Integration order.  For every body, [integrate] first adds
    [GRAVITY * dt] to [vy], with [GRAVITY = 2000], then advances [x] by
    [vx * dt] and [y] by the new [vy] times [dt]; when the floor test fails
    on the integrated body, [vy] at the end of the step is
    [vy + GRAVITY * dt] and [y] is [y + (vy + GRAVITY * dt) * dt].  For the
    box at (100, 0) of size 50 x 50 with velocity (0, 30), a pass with
    [dt = 0.1] on a page 800 x 600 leaves [vy = 230], [y = 23] and writes
    [left = 100px], [top = 23px]; this holds in exact arithmetic and in
    binary64. *)
Theorem symplectic_euler_step :
  (∀ (N : Type) (JN : JsNumber N) (dt page_w page_h : N) (b : Body N),
      GRAVITY = (#2000)%js
      ∧ vy (integrate dt b) = (vy b + GRAVITY * dt)%js
      ∧ x (integrate dt b) = (x b + vx b * dt)%js
      ∧ y (integrate dt b) = (y b + vy (integrate dt b) * dt)%js
      ∧ ((y (integrate dt b) + h b >? page_h)%js = false →
           vy (step_body dt page_w page_h b) = (vy b + GRAVITY * dt)%js
           ∧ y (step_body dt page_w page_h b)
             = (y b + (vy b + GRAVITY * dt) * dt)%js))
  ∧ (let r := step_bodies (decimal 1 10) (#800)%js (#600)%js
                [@falling R _] ∅ in
     r.1 = [mkBody div_el 100%R 23%R 0%R 230%R 50%R 50%R]
     ∧ style_of r.2 div_el "left" = Some (Px 100%R)
     ∧ style_of r.2 div_el "top" = Some (Px 23%R))
  ∧ (let r := step_bodies (decimal 1 10) (#800)%js (#600)%js
                [@falling float _] ∅ in
     r.1 = [mkBody div_el 100%float 23%float 0%float 230%float
              50%float 50%float]
     ∧ style_of r.2 div_el "left" = Some (Px 100%float)
     ∧ style_of r.2 div_el "top" = Some (Px 23%float)).
Proof.
  split; [| split].
  - intros N JN dt page_w page_h b.
    split; [reflexivity |]. split; [reflexivity |].
    split; [reflexivity |]. split; [reflexivity |].
    intros Hmiss.
    destruct (step_body_vertical dt page_w page_h b) as [-> ->].
    rewrite floor_collision_miss by exact Hmiss.
    split; reflexivity.
  - cbv zeta. cbn [step_bodies fst snd]. rewrite falling_step_real.
    unfold write_back. cbv zeta. cbn [el x y].
    split; [reflexivity |]. split.
    + rewrite style_of_set_other_prop by discriminate.
      rewrite style_of_set_eq. now rewrite (real_round_int 100).
    + rewrite style_of_set_eq. now rewrite (real_round_int 23).
  - vm_compute. repeat split.
Qed.

(** The general part of [symplectic_euler_step] at the falling box, in
    binary64: no floor contact, so [vy] goes from 30 to 230. *)
Lemma symplectic_euler_step_witness :
  (y (integrate (decimal 1 10) (@falling float _)) + h (@falling float _)
     >? #600)%js = false
  ∧ vy (step_body (decimal 1 10) (#800)%js (#600)%js (@falling float _))
    = 230%float.
Proof.
  assert (Hmiss :
    (y (integrate (decimal 1 10) (@falling float _)) + h (@falling float _)
       >? #600)%js = false) by (vm_compute; reflexivity).
  split; [exact Hmiss |].
  destruct symplectic_euler_step as (Hgen & _).
  destruct (Hgen float _ (decimal 1 10) (#800)%js (#600)%js falling)
    as (_ & _ & _ & _ & Hfree).
  destruct (Hfree Hmiss) as (-> & _). vm_compute. reflexivity.
Defined.

(** ** Activation *)

Lemma not_rendered_true (cs : ComputedStyle) :
  not_rendered cs = true
  ↔ display cs = "none" ∨ visibility cs = "hidden" ∨ opacity cs = "0".
Proof.
  unfold not_rendered. rewrite !orb_true_iff, !String.eqb_eq. tauto.
Qed.

Section Activation.
Context {N : Type} `{!JsNumber N}.
Local Open Scope js_scope.
Implicit Types (host : Host N) (st : State N) (e : Element) (b : Body N).

Lemma activate_rejected host e st :
  rejected host e st → activateElement host (Some e) st = (None, st).
Proof.
  intros Hrej. unfold activateElement.
  case_bool_decide as Hactive; [reflexivity |].
  case_bool_decide as Htag; [reflexivity |].
  destruct (not_rendered (getComputedStyle host e)) eqn:Hshown;
    [reflexivity |].
  destruct ((rect_width (getBoundingClientRect host e) === #0)
            || (rect_height (getBoundingClientRect host e) === #0))
    eqn:Hsize; [reflexivity |].
  exfalso. apply orb_false_iff in Hsize as [Hw Hh].
  assert (Hcs : ¬ (display (getComputedStyle host e) = "none"
                   ∨ visibility (getComputedStyle host e) = "hidden"
                   ∨ opacity (getComputedStyle host e) = "0")).
  { rewrite <- not_rendered_true. congruence. }
  destruct Hrej as [?|[?|[?|[?|[?|[?|?]]]]]]; try tauto; congruence.
Qed.

Lemma activate_accepted host e st :
  ¬ rejected host e st →
  ∃ b, activateElement host (Some e) st
       = (Some b,
          mkState (bodies st ++ [b]) ({[node e]} ∪ activeSet st) (last st)
            (detach host e (getBoundingClientRect host e) (styles st))
            (frames_requested st))
       ∧ el b = e ∧ vx b = #0 ∧ vy b = #30
       ∧ x b = rect_left (getBoundingClientRect host e) + scrollX host
       ∧ y b = rect_top (getBoundingClientRect host e) + scrollY host
       ∧ w b = rect_width (getBoundingClientRect host e)
       ∧ h b = rect_height (getBoundingClientRect host e).
Proof.
  intros Hok. unfold rejected in Hok. unfold activateElement.
  case_bool_decide as Hactive; [tauto |].
  case_bool_decide as Htag; [tauto |].
  destruct (not_rendered (getComputedStyle host e)) eqn:Hshown.
  { apply not_rendered_true in Hshown. tauto. }
  destruct (rect_width (getBoundingClientRect host e) === #0) eqn:Hw;
    [tauto |].
  destruct (rect_height (getBoundingClientRect host e) === #0) eqn:Hh;
    [tauto |].
  cbn. eexists. split; [reflexivity |]. repeat split.
Qed.

Lemma activate_success host e st b st1 :
  activateElement host (Some e) st = (Some b, st1) →
  bodies st1 = bodies st ++ [b] ∧ activeSet st1 = {[node e]} ∪ activeSet st.
Proof.
  unfold activateElement.
  repeat case_bool_decide; try discriminate.
  destruct (not_rendered _); try discriminate.
  destruct (_ || _); try discriminate.
  intros [= <- <-]. split; reflexivity.
Qed.

End Activation.

(** C8.  Rejection and idempotence of [activateElement].  The call returns
    [null] and the state it received (bodies, active set, styles, clock)
    when the argument is [null], or is already in [activeSet], or has an
    excluded tag, or has computed [display: none], [visibility: hidden] or
    [opacity: 0], or has a bounding width or height [=== 0].  After a call
    that succeeded on an element, a second call on it, whatever the page
    then looks like, returns [null] and changes nothing; from the initial
    state the body list then has length 1. *)
Theorem activate_rejects :
  ∀ (N : Type) (JN : JsNumber N) (host host' : Host N) (st : State N),
    activateElement host None st = (None, st)
    ∧ (∀ e, rejected host e st →
            activateElement host (Some e) st = (None, st))
    ∧ (∀ e b st1,
         activateElement host (Some e) st = (Some b, st1) →
         activateElement host' (Some e) st1 = (None, st1)
         ∧ length (bodies st1) = S (length (bodies st))
         ∧ (bodies st = [] →
            length (bodies (activateElement host' (Some e) st1).2) = 1)).
Proof.
  intros N JN host host' st. split; [reflexivity |]. split.
  - intros e. apply activate_rejected.
  - intros e b st1 Hfirst.
    destruct (activate_success host e st b st1 Hfirst) as [Hbodies Hset].
    assert (Hsecond : activateElement host' (Some e) st1 = (None, st1)).
    { apply activate_rejected. left. rewrite Hset.
      apply elem_of_union_l, elem_of_singleton. reflexivity. }
    split; [exact Hsecond |]. split.
    + rewrite Hbodies, length_app. cbn. lia.
    + intros Hempty. rewrite Hsecond. cbn.
      rewrite Hbodies, Hempty. reflexivity.
Qed.

(** In binary64, on the page [host0]: the first click on the [DIV] makes
    the falling box, the second is refused and the list keeps length 1;
    [BODY] is refused for its tag. *)
Lemma activate_rejects_witness :
  let st0 : State float := init (#0)%js in
  let r1 := activateElement host0 (Some div_el) st0 in
  let r2 := activateElement host0 (Some div_el) r1.2 in
  r1.1 = Some falling
  ∧ r2 = (None, r1.2)
  ∧ length (bodies r2.2) = 1
  ∧ activateElement host0 (Some body_el) st0 = (None, st0).
Proof.
  cbv zeta.
  set (st0 := init (#0)%js : State float).
  set (r1 := activateElement host0 (Some div_el) st0).
  assert (Hbody : r1.1 = Some falling) by (vm_compute; reflexivity).
  assert (Hfirst : r1 = (Some falling, r1.2))
    by (rewrite <- Hbody; apply surjective_pairing).
  destruct (activate_rejects float _ host0 host0 st0) as (_ & Hrej & Htwice).
  destruct (Htwice div_el falling r1.2 Hfirst) as (Hsecond & _ & Hone).
  split; [exact Hbody |].
  split; [exact Hsecond |].
  split; [apply Hone; reflexivity |].
  apply Hrej. right. left. apply (bool_decide_unpack _). vm_compute. exact I.
Defined.

(** ** The impulse pass, for every number instance *)

Lemma impulse_body_frame {N : Type} `{!JsNumber N} (ox oy : N) (b : Body N) :
  el (impulse_body ox oy b) = el b
  ∧ x (impulse_body ox oy b) = x b ∧ y (impulse_body ox oy b) = y b
  ∧ w (impulse_body ox oy b) = w b ∧ h (impulse_body ox oy b) = h b.
Proof. repeat split. Qed.

(** C9.  The impulse pass is a velocity update.  It keeps the length of
    [bodies], the active set, the clock and the inline styles, and the
    body at each index keeps its element, position and size; only [vx] and
    [vy] are assigned. *)
Theorem impulse_frame :
  ∀ (N : Type) (JN : JsNumber N) (ox oy : N) (st : State N),
    let st' := applyRadialImpulse ox oy st in
    length (bodies st') = length (bodies st)
    ∧ activeSet st' = activeSet st
    ∧ last st' = last st
    ∧ styles st' = styles st
    ∧ (∀ i, bodies st' !! i = impulse_body ox oy <$> bodies st !! i)
    ∧ (∀ i b, bodies st !! i = Some b →
         ∃ b', bodies st' !! i = Some b'
               ∧ el b' = el b ∧ x b' = x b ∧ y b' = y b
               ∧ w b' = w b ∧ h b' = h b).
Proof.
  intros N JN ox oy st st'. subst st'. unfold applyRadialImpulse. cbn.
  split; [apply length_fmap |]. do 3 (split; [reflexivity |]).
  split; [intros i; apply list_lookup_fmap |].
  intros i b Hb. exists (impulse_body ox oy b).
  rewrite list_lookup_fmap, Hb. split; [reflexivity |].
  apply impulse_body_frame.
Qed.

(** In binary64: a click at (0, 1) on a state holding the sliver changes
    its [vx] and nothing else. *)
Lemma impulse_frame_witness :
  let st : State float := mkState [sliver] {[node div_el]} (#0)%js ∅ 1 in
  ∃ b', bodies (applyRadialImpulse (#0)%js (#1)%js st) !! 0%nat = Some b'
        ∧ el b' = div_el ∧ x b' = 0%float ∧ y b' = 0%float
        ∧ w b' = 1%float ∧ h b' = 2%float.
Proof.
  cbv zeta.
  destruct (impulse_frame float _ (#0)%js (#1)%js
              (mkState [sliver] {[node div_el]} (#0)%js ∅ 1))
    as (_ & _ & _ & _ & _ & Hkeep).
  exact (Hkeep 0%nat sliver eq_refl).
Defined.

(** ** The frame callback in exact arithmetic *)

Lemma step_bodies_fst {N : Type} `{!JsNumber N} (dt page_w page_h : N)
    (bs : list (Body N)) css :
  (step_bodies dt page_w page_h bs css).1 = step_body dt page_w page_h <$> bs.
Proof.
  revert css. induction bs as [| b rest IH]; intros css; [reflexivity |].
  cbn [step_bodies]. specialize (IH (write_back (step_body dt page_w page_h b) css)).
  destruct (step_bodies dt page_w page_h rest _) as [rest' css'].
  cbn in *. now rewrite IH.
Qed.

Lemma step_bodies_of_step {N : Type} `{!JsNumber N} (host : Host N) (now : N)
    (st : State N) :
  bodies (step host now st)
  = step_body (frame_dt now (last st)) (pageWidth host) (pageHeight host)
      <$> bodies st
  ∧ last (step host now st) = now
  ∧ activeSet (step host now st) = activeSet st.
Proof.
  unfold step. cbv zeta.
  pose proof (step_bodies_fst (frame_dt now (last st)) (pageWidth host)
                (pageHeight host) (bodies st) (styles st)) as Hfst.
  destruct (step_bodies _ _ _ (bodies st) (styles st)) as [bs css].
  cbn in *. now rewrite Hfst.
Qed.

Section StepReal.
Local Open Scope R_scope.
Implicit Types (b : Body R) (dt page_w page_h : R).

Lemma floor_collision_bound page_h b :
  y (floor_collision page_h b) + h (floor_collision page_h b) <= page_h.
Proof.
  destruct (y b + h b >? page_h)%js eqn:Htest.
  - rewrite floor_collision_hit by assumption. cbn. lra.
  - rewrite floor_collision_miss by assumption.
    now apply real_lt_false in Htest.
Qed.

Lemma left_wall_bound b : 0 <= x (left_wall b).
Proof.
  unfold left_wall. destruct (x b <? #0)%js eqn:Htest; cbn.
  - lra.
  - now apply real_lt_false in Htest.
Qed.

Lemma right_wall_bound page_w b :
  x (right_wall page_w b) + w (right_wall page_w b) <= page_w
  ∧ (0 <= x b → w b <= page_w → 0 <= x (right_wall page_w b)).
Proof.
  unfold right_wall. destruct (x b + w b >? page_w)%js eqn:Htest; cbn.
  - split; lra.
  - apply real_lt_false in Htest. split; [exact Htest | tauto].
Qed.

Lemma step_body_bounds dt page_w page_h b :
  let b' := step_body dt page_w page_h b in
  y b' + h b' <= page_h
  ∧ x b' + w b' <= page_w
  ∧ (0 <= x b' ↔ w b' <= page_w).
Proof.
  cbv zeta.
  destruct (step_body_vertical dt page_w page_h b) as [Hy _].
  destruct (step_body_size dt page_w page_h b) as (Hw & Hh & _).
  pose proof (floor_collision_bound page_h (integrate dt b)) as Hfloor.
  destruct (floor_collision_frame page_h (integrate dt b)) as (_ & _ & Hh2 & _).
  destruct (right_wall_bound page_w
              (left_wall (floor_collision page_h (integrate dt b))))
    as [Hright Hkeep].
  pose proof (left_wall_bound (floor_collision page_h (integrate dt b)))
    as Hleft.
  destruct (left_wall_frame (floor_collision page_h (integrate dt b)))
    as (_ & _ & Hw3 & _).
  destruct (floor_collision_frame page_h (integrate dt b)) as (_ & Hw2 & _).
  change (right_wall page_w
            (left_wall (floor_collision page_h (integrate dt b))))
    with (step_body dt page_w page_h b) in Hright, Hkeep.
  change (h (integrate dt b)) with (h b) in Hh2.
  change (w (integrate dt b)) with (w b) in Hw2.
  rewrite Hy, Hh, <- Hh2.
  split; [exact Hfloor |]. split; [exact Hright |].
  split; [lra |].
  intros Hfits. apply Hkeep; [exact Hleft |]. rewrite Hw3, Hw2, <- Hw.
  exact Hfits.
Qed.

End StepReal.

(** C1, as the code has it.  In exact arithmetic, for any [dt] and page
    bounds, a body after [step_body] satisfies [y + h <= pageHeight] and
    [x + w <= pageWidth], and it satisfies [0 <= x] exactly when it is no
    wider than the page, [w <= pageWidth]; so does every body of the state
    after the frame callback, for the bounds the host reports. *)
Theorem step_bounds :
  (∀ (dt page_w page_h : R) (b : Body R),
     let b' := step_body dt page_w page_h b in
     (y b' + h b' <= page_h)%R
     ∧ (x b' + w b' <= page_w)%R
     ∧ ((0 <= x b')%R ↔ (w b <= page_w)%R))
  ∧ (∀ (host : Host R) (now : R) (st : State R),
       Forall (λ b : Body R,
                 (y b + h b <= pageHeight host)%R
                 ∧ (x b + w b <= pageWidth host)%R
                 ∧ ((0 <= x b)%R ↔ (w b <= pageWidth host)%R))
         (bodies (step host now st))).
Proof.
  split.
  - intros dt page_w page_h b b'. subst b'.
    destruct (step_body_size dt page_w page_h b) as (Hw & _).
    rewrite <- Hw. apply step_body_bounds.
  - intros host now st.
    destruct (step_bodies_of_step host now st) as (-> & _).
    apply Forall_fmap, Forall_forall. intros b _.
    apply (step_body_bounds (frame_dt now (last st)) (pageWidth host)
             (pageHeight host) b).
Qed.

(** The falling box, 50 wide on a page 800 wide, stays at [0 <= x]. *)
Lemma step_bounds_witness :
  (w (@falling R _) <= 800)%R
  ∧ (0 <= x (step_body (decimal 1 10) 800%R 600%R (@falling R _)))%R.
Proof.
  assert (Hfits : (w (@falling R _) <= 800)%R) by (real_unfold; lra).
  split; [exact Hfits |].
  destruct step_bounds as (Hbody & _).
  destruct (Hbody (decimal 1 10) 800%R 600%R falling) as (_ & _ & Hx).
  apply Hx, Hfits.
Defined.

(** C1 as stated fails.  A box 100 wide at [x = 0] on a page 50 wide: the
    left test fails, the right test holds, and the step ends with
    [x = 50 - 100 = -50], in exact arithmetic and in binary64. *)
Lemma step_bounds_fail_wide :
  x (step_body (decimal 1 64) (#50)%js (#600)%js (@wide R _)) = (-50)%R
  ∧ ¬ (0 <= x (step_body (decimal 1 64) (#50)%js (#600)%js (@wide R _)))%R
  ∧ x (step_body (decimal 1 64) (#50)%js (#600)%js (@wide float _))
    = (-50)%float.
Proof.
  assert (Hx : x (step_body (decimal 1 64) (#50)%js (#600)%js (@wide R _))
               = (-50)%R).
  { real_unfold. real_cases. }
  split; [exact Hx |]. split; [rewrite Hx; lra |].
  vm_compute. reflexivity.
Qed.

(** ** The frame clock *)

Lemma frame_dt_real (now last0 : R) :
  frame_dt now last0 = Rmin (5 / 100) ((now - last0) / 1000).
Proof. reflexivity. Qed.

(** C7, as the code has it.  With the two time stamps in milliseconds, the
    callback integrates with [dt = min(0.05, (now - last) / 1000)] and then
    stores [now] in [last].  In exact arithmetic [dt <= 0.05] for every
    pair of time stamps, and [0 <= dt] exactly when [last <= now]: there is
    an upper cap and no lower one. *)
Theorem frame_dt_capped :
  ∀ (host : Host R) (now : R) (st : State R),
    let dt := frame_dt now (last st) in
    dt = Rmin (5 / 100) ((now - last st) / 1000)
    ∧ bodies (step host now st)
      = step_body dt (pageWidth host) (pageHeight host) <$> bodies st
    ∧ last (step host now st) = now
    ∧ (dt <= 5 / 100)%R
    ∧ ((0 <= dt)%R ↔ (last st <= now)%R).
Proof.
  intros host now st dt. subst dt.
  destruct (step_bodies_of_step host now st) as (Hbodies & Hlast & _).
  rewrite frame_dt_real.
  split; [reflexivity |]. split; [exact Hbodies |]. split; [exact Hlast |].
  unfold Rmin. destruct (Rle_dec (5 / 100) ((now - last st) / 1000));
    repeat split; intros; lra.
Qed.

(** A frame 16 ms after the previous one integrates with [dt = 0.016]. *)
Lemma frame_dt_capped_witness :
  (0 <= frame_dt 16%R (last (init 0%R)))%R.
Proof.
  destruct (frame_dt_capped host0 16%R (init 0%R)) as (_ & _ & _ & _ & Hpos).
  apply Hpos. cbn. lra.
Defined.

(** C7 as stated fails.  A time stamp one second before [last] gives
    [dt = min(0.05, -1) = -1], in exact arithmetic and in binary64. *)
Lemma frame_dt_negative :
  @frame_dt R _ 0%R 1000%R = (-1)%R
  ∧ ¬ (0 <= @frame_dt R _ 0%R 1000%R)%R
  ∧ @frame_dt float _ 0%float 1000%float = (-1)%float.
Proof.
  assert (Hdt : @frame_dt R _ 0%R 1000%R = (-1)%R).
  { rewrite frame_dt_real. unfold Rmin. real_cases. }
  split; [exact Hdt |]. split; [rewrite Hdt; lra |].
  vm_compute. reflexivity.
Qed.

(** ** The impulse in exact arithmetic *)

Section ImpulseReal.
Local Open Scope R_scope.
Implicit Types (b : Body R) (dx dy ox oy dist : R).

Lemma impulse_dist_real dx dy :
  (R_sqrt.sqrt (dx * dx + dy * dy) ≠ 0 →
     impulse_dist dx dy = R_sqrt.sqrt (dx * dx + dy * dy))
  ∧ (R_sqrt.sqrt (dx * dx + dy * dy) = 0 → impulse_dist dx dy = 1).
Proof.
  unfold impulse_dist, num_or.
  destruct (num_truthy (Math_sqrt (dx * dx + dy * dy)%js)) eqn:Ht.
  - split; [reflexivity |]. intros Hz. apply real_truthy in Ht. now destruct Ht.
  - split; [| reflexivity]. intros Hnz. apply real_truthy in Hnz.
    cbn in Ht, Hnz. congruence.
Qed.

Lemma impulse_dist_pos dx dy : 0 < impulse_dist dx dy.
Proof.
  destruct (impulse_dist_real dx dy) as [Hnz Hz].
  destruct (Req_dec_T (R_sqrt.sqrt (dx * dx + dy * dy)) 0) as [Heq | Hne].
  - rewrite (Hz Heq). lra.
  - rewrite (Hnz Hne). pose proof (sqrt_pos (dx * dx + dy * dy)). lra.
Qed.

Lemma impulse_dist_at_centre : impulse_dist 0 0 = 1.
Proof.
  apply impulse_dist_real. replace (0 * 0 + 0 * 0) with 0 by lra.
  apply sqrt_0.
Qed.

Lemma impulse_force_real dist :
  impulse_force dist = Rmin 3000 (60000 / (dist + 20)).
Proof. reflexivity. Qed.

(** The cap of 3000 is reached only at distance 0, which never occurs. *)
Lemma impulse_force_below_cap dist :
  0 < dist →
  impulse_force dist = 60000 / (dist + 20)
  ∧ 0 < impulse_force dist < 3000.
Proof.
  intros Hpos. rewrite impulse_force_real.
  assert (Hdiv : 0 < 60000 / (dist + 20) < 3000).
  { split.
    - apply Rdiv_lt_0_compat; lra.
    - apply (Rmult_lt_reg_r (dist + 20)); [lra |].
      unfold Rdiv. rewrite Rmult_assoc, Rinv_l by lra. lra. }
  unfold Rmin. destruct (Rle_dec 3000 (60000 / (dist + 20))); [lra |].
  split; [reflexivity | exact Hdiv].
Qed.

End ImpulseReal.

(** C5, as the code has it.  The radial impulse.  For every body and
    origin [(ox, oy)], in every number instance, with [dx = x + w/2 - ox],
    [dy = y + h/2 - oy], [dist] the divisor of line 103 and
    [force = min(3000, 60000 / (dist + 20))], the pass adds
    [(dx / dist) * (force / 1000)] to [vx] and [(dy / dist) * (force /
    1000)] to [vy].  In exact arithmetic the change of velocity is a
    positive multiple of [(dx, dy)], the vector from the origin to the
    centre, so it points away from the origin, and an origin strictly left
    of the centre strictly increases [vx].  The strict increase is a fact
    of exact arithmetic only: in binary64 the added term can be rounded
    away, as the grazed box shows below. *)
Theorem impulse_pushes_away :
  (∀ (N : Type) (JN : JsNumber N) (ox oy : N) (b : Body N),
     let dx := (x b + w b / #2 - ox)%js in
     let dy := (y b + h b / #2 - oy)%js in
     let dist := impulse_dist dx dy in
     let force := impulse_force dist in
     force = Math_min (#3000)%js (#60000 / (dist + #20))%js
     ∧ vx (impulse_body ox oy b) = (vx b + dx / dist * (force / #1000))%js
     ∧ vy (impulse_body ox oy b) = (vy b + dy / dist * (force / #1000))%js)
  ∧ (∀ (ox oy : R) (b : Body R),
       let dx := (x b + w b / 2 - ox)%R in
       let dy := (y b + h b / 2 - oy)%R in
       (∃ k : R, (0 < k)%R
          ∧ (vx (impulse_body ox oy b) - vx b = k * dx)%R
          ∧ (vy (impulse_body ox oy b) - vy b = k * dy)%R)
       ∧ ((ox < x b + w b / 2)%R → (vx b < vx (impulse_body ox oy b))%R)).
Proof.
  split.
  - intros N JN ox oy b. cbv zeta. repeat split.
  - intros ox oy b dx dy.
    pose proof (impulse_dist_pos dx dy) as Hdist.
    destruct (impulse_force_below_cap (impulse_dist dx dy) Hdist)
      as (_ & Hforce & _).
    assert (Hvx : vx (impulse_body ox oy b)
                  = (vx b + dx / impulse_dist dx dy
                            * (impulse_force (impulse_dist dx dy) / 1000))%R)
      by reflexivity.
    assert (Hvy : vy (impulse_body ox oy b)
                  = (vy b + dy / impulse_dist dx dy
                            * (impulse_force (impulse_dist dx dy) / 1000))%R)
      by reflexivity.
    rewrite Hvx, Hvy.
    set (dist := impulse_dist dx dy) in *.
    set (force := impulse_force dist) in *.
    assert (Hk : (0 < force / 1000 / dist)%R).
    { apply Rdiv_lt_0_compat; [lra | exact Hdist]. }
    split.
    + exists (force / 1000 / dist)%R.
      split; [exact Hk |]. split; field; lra.
    + intros Hleft.
      assert (Hdx : (0 < dx)%R) by (subst dx; lra).
      assert (Hgain : (0 < (force / 1000 / dist) * dx)%R)
        by (apply Rmult_lt_0_compat; assumption).
      replace (dx / dist * (force / 1000))%R
        with ((force / 1000 / dist) * dx)%R by (field; lra).
      lra.
Qed.

(** A click at (0, 1), left of the centre (0.5, 1) of the sliver. *)
Lemma impulse_pushes_away_witness :
  (0 < x (@sliver R _) + w (@sliver R _) / 2)%R
  ∧ (vx (@sliver R _) < vx (impulse_body 0%R 1%R (@sliver R _)))%R.
Proof.
  assert (Hleft : (0 < x (@sliver R _) + w (@sliver R _) / 2)%R)
    by (real_unfold; lra).
  split; [exact Hleft |].
  destruct impulse_pushes_away as (_ & Hreal).
  destruct (Hreal 0%R 1%R sliver) as (_ & Hpush).
  apply Hpush, Hleft.
Defined.

(** C5 as stated fails in binary64: an origin strictly left of the centre
    need not increase [vx].  For the grazed box (centre
    125.00000000000001, [vx = 2.5]) and a click at (125, 100), [dx] is
    1.42e-14, the term added to [vx] is about 1e-16, less than half the
    spacing of the numbers around 2.5, and [vx] stays 2.5. *)
Lemma impulse_absorbed_binary64 :
  (#125 <? x grazed + w grazed / #2)%js = true
  ∧ (x grazed + w grazed / #2 - #125)%js = 0x1p-46%float
  ∧ vx (impulse_body (#125)%js (#100)%js grazed) = vx grazed
  ∧ (vx grazed <? vx (impulse_body (#125)%js (#100)%js grazed))%js = false.
Proof. vm_compute. repeat split. Qed.

(** C6, as the code has it.  The divisor of line 103 is
    [sqrt(dx*dx + dy*dy)], with 1 put in its place when that value is
    falsy.  In exact arithmetic it is the square root when that is not 0
    and 1 when it is, so it is positive, never 0, and equal to 1 when the
    origin is the centre; [dist + 20] is not 0 either.  In binary64 the
    divisor is never zero and never NaN.  It can be below 1. *)
Theorem impulse_dist_nonzero :
  (∀ dx dy : R,
     let s := R_sqrt.sqrt (dx * dx + dy * dy) in
     (s ≠ 0%R → impulse_dist dx dy = s)
     ∧ (s = 0%R → impulse_dist dx dy = 1%R)
     ∧ (0 < impulse_dist dx dy)%R
     ∧ impulse_dist dx dy ≠ 0%R
     ∧ (impulse_dist dx dy + 20)%R ≠ 0%R)
  ∧ @impulse_dist R _ 0%R 0%R = 1%R
  ∧ (∀ dx dy : float, num_truthy (impulse_dist dx dy) = true).
Proof.
  split; [| split].
  - intros dx dy s. pose proof (impulse_dist_pos dx dy) as Hpos.
    destruct (impulse_dist_real dx dy) as [Hnz Hz].
    split; [exact Hnz |]. split; [exact Hz |].
    split; [exact Hpos |]. split; lra.
  - exact impulse_dist_at_centre.
  - intros dx dy. unfold impulse_dist, num_or.
    destruct (num_truthy (Math_sqrt (dx * dx + dy * dy)%js)) eqn:Ht.
    + exact Ht.
    + vm_compute. reflexivity.
Qed.

(** At the centre the square root is 0 and the divisor is 1. *)
Lemma impulse_dist_nonzero_witness :
  R_sqrt.sqrt (0 * 0 + 0 * 0) = 0%R ∧ @impulse_dist R _ 0%R 0%R = 1%R.
Proof.
  assert (Hz : R_sqrt.sqrt (0 * 0 + 0 * 0) = 0%R).
  { replace (0 * 0 + 0 * 0)%R with 0%R by lra. apply sqrt_0. }
  split; [exact Hz |].
  destruct impulse_dist_nonzero as (Hreal & _).
  destruct (Hreal 0%R 0%R) as (_ & Hzero & _).
  exact (Hzero Hz).
Defined.

(** C6 as stated fails: the divisor is not floored to 1.  For the sliver
    (centre (0.5, 1)) and a click at (0, 1), [dx = 0.5], [dy = 0] and the
    divisor is 0.5, in exact arithmetic and in binary64. *)
Lemma impulse_dist_below_one :
  let dx := (x (@sliver R _) + w (@sliver R _) / 2 - 0)%R in
  let dy := (y (@sliver R _) + h (@sliver R _) / 2 - 1)%R in
  impulse_dist dx dy = (1 / 2)%R
  ∧ ¬ (1 <= impulse_dist dx dy)%R
  ∧ impulse_dist (x (@sliver float _) + w (@sliver float _) / #2 - #0)%js
      (y (@sliver float _) + h (@sliver float _) / #2 - #1)%js
    = 0.5%float.
Proof.
  cbv zeta.
  assert (Hdx : (x (@sliver R _) + w (@sliver R _) / 2 - 0)%R = (1 / 2)%R)
    by (real_unfold; lra).
  assert (Hdy : (y (@sliver R _) + h (@sliver R _) / 2 - 1)%R = 0%R)
    by (real_unfold; lra).
  rewrite Hdx, Hdy.
  assert (Hs : R_sqrt.sqrt (1 / 2 * (1 / 2) + 0 * 0) = (1 / 2)%R).
  { replace (1 / 2 * (1 / 2) + 0 * 0)%R with ((1 / 2) * (1 / 2))%R by lra.
    apply sqrt_square. lra. }
  assert (Hd : @impulse_dist R _ (1 / 2)%R 0%R = (1 / 2)%R).
  { destruct (impulse_dist_real (1 / 2) 0) as [Hnz _].
    rewrite Hnz; [exact Hs | rewrite Hs; lra]. }
  split; [exact Hd |]. split; [rewrite Hd; lra |].
  vm_compute. reflexivity.
Qed.

(** C10, as the code has it.  When the origin is the centre of a body, in
    exact arithmetic, [dx = dy = 0], the divisor is 1, both added terms
    are 0 and the body is returned as it was.  The force is then
    [60000 / 21], about 2857.14, which is below the cap of 3000. *)
Theorem impulse_at_centre :
  ∀ (ox oy : R) (b : Body R),
    ox = (x b + w b / 2)%R →
    oy = (y b + h b / 2)%R →
    let dx := (x b + w b / 2 - ox)%R in
    let dy := (y b + h b / 2 - oy)%R in
    let dist := impulse_dist dx dy in
    let force := impulse_force dist in
    dx = 0%R ∧ dy = 0%R ∧ dist = 1%R
    ∧ force = (60000 / 21)%R ∧ (force < 3000)%R
    ∧ (dx / dist * (force / 1000))%R = 0%R
    ∧ (dy / dist * (force / 1000))%R = 0%R
    ∧ vx (impulse_body ox oy b) = vx b
    ∧ vy (impulse_body ox oy b) = vy b
    ∧ impulse_body ox oy b = b.
Proof.
  intros ox oy b Hox Hoy dx dy dist force.
  assert (Hdx : dx = 0%R) by (subst dx; lra).
  assert (Hdy : dy = 0%R) by (subst dy; lra).
  assert (Hdist : dist = 1%R).
  { subst dist. rewrite Hdx, Hdy. exact impulse_dist_at_centre. }
  assert (Hforce : force = (60000 / 21)%R).
  { subst force. rewrite Hdist.
    destruct (impulse_force_below_cap 1) as (-> & _); lra. }
  assert (Hvx : vx (impulse_body ox oy b)
                = (vx b + dx / dist * (force / 1000))%R) by reflexivity.
  assert (Hvy : vy (impulse_body ox oy b)
                = (vy b + dy / dist * (force / 1000))%R) by reflexivity.
  assert (Htx : (dx / dist * (force / 1000))%R = 0%R)
    by (rewrite Hdx, Hdist; lra).
  assert (Hty : (dy / dist * (force / 1000))%R = 0%R)
    by (rewrite Hdy, Hdist; lra).
  rewrite Htx in Hvx. rewrite Hty in Hvy.
  rewrite Rplus_0_r in Hvx, Hvy.
  repeat split; try assumption; try lra.
  destruct b as [e bx by0 bvx bvy bw bh].
  change (impulse_body ox oy (mkBody e bx by0 bvx bvy bw bh))
    with (mkBody e bx by0
            (vx (impulse_body ox oy (mkBody e bx by0 bvx bvy bw bh)))
            (vy (impulse_body ox oy (mkBody e bx by0 bvx bvy bw bh)))
            bw bh).
  rewrite Hvx, Hvy. reflexivity.
Qed.

(** A click at (1, 1), the centre of the square. *)
Lemma impulse_at_centre_witness :
  impulse_body 1%R 1%R (@square R _) = @square R _.
Proof.
  apply (impulse_at_centre 1%R 1%R square); real_unfold; lra.
Defined.

(** C10 as stated fails in its last part: at the centre the force is not
    the cap.  For the square and a click at (1, 1) it is [60000 / 21] in
    exact arithmetic and 2857.1428571428573 in binary64, below 3000. *)
Lemma impulse_force_at_centre_not_cap :
  let dx := (x (@square R _) + w (@square R _) / 2 - 1)%R in
  let dy := (y (@square R _) + h (@square R _) / 2 - 1)%R in
  impulse_force (impulse_dist dx dy) = (60000 / 21)%R
  ∧ impulse_force (impulse_dist dx dy) ≠ 3000%R
  ∧ impulse_force
      (impulse_dist (x (@square float _) + w (@square float _) / #2 - #1)%js
         (y (@square float _) + h (@square float _) / #2 - #1)%js)
    = 2857.1428571428573%float.
Proof.
  cbv zeta.
  assert (Hdx : (x (@square R _) + w (@square R _) / 2 - 1)%R = 0%R)
    by (real_unfold; lra).
  assert (Hdy : (y (@square R _) + h (@square R _) / 2 - 1)%R = 0%R)
    by (real_unfold; lra).
  rewrite Hdx, Hdy, impulse_dist_at_centre.
  destruct (impulse_force_below_cap 1) as (Hf & _ & Hlt); [lra |].
  split; [rewrite Hf; lra |]. split; [lra |].
  vm_compute. reflexivity.
Qed.

(** * Further properties of the script *)

(** ** The climb of line 94 *)

Lemma Element_chain_ind (P : Element → Prop) :
  (∀ n tag, P (mkElement n tag None)) →
  (∀ n tag p, P p → P (mkElement n tag (Some p))) →
  ∀ e, P e.
Proof.
  intros Hroot Hchild. fix IH 1.
  intros [n tag [p |]]; [apply Hchild, IH | apply Hroot].
Qed.

Lemma closest_included_head (e : Element) :
  closest_included e
  = head (filter (λ a, tagName a ∉ excludeTags) (ancestors_or_self e)).
Proof.
  induction e as [n tag | n tag p IH] using Element_chain_ind.
  - cbn [closest_included ancestors_or_self].
    rewrite filter_cons. cbn [tagName].
    case_bool_decide as Htag; destruct (decide (tag ∉ excludeTags));
      try reflexivity; tauto.
  - cbn [closest_included ancestors_or_self].
    rewrite filter_cons. cbn [tagName].
    case_bool_decide as Htag; destruct (decide (tag ∉ excludeTags));
      try reflexivity; try tauto.
Qed.

(** X1.  The climb returns the nearest element, among the target and its
    ancestors, whose tag is not excluded: what it returns has no excluded
    tag and is the target or one of its ancestors, a target with no
    excluded tag is returned itself, and it returns nothing exactly when
    the target and all its ancestors have excluded tags. *)
Theorem closest_included_nearest :
  ∀ e : Element,
    closest_included e
    = head (filter (λ a, tagName a ∉ excludeTags) (ancestors_or_self e))
    ∧ (∀ a, closest_included e = Some a →
            (tagName a ∉ excludeTags) ∧ (a ∈ ancestors_or_self e))
    ∧ (tagName e ∉ excludeTags → closest_included e = Some e)
    ∧ (closest_included e = None
       ↔ Forall (λ a, tagName a ∈ excludeTags) (ancestors_or_self e)).
Proof.
  intros e. pose proof (closest_included_head e) as Hhead.
  split; [exact Hhead |]. split; [| split].
  - intros a Hsome. rewrite Hhead in Hsome.
    apply head_Some_elem_of, list_elem_of_filter in Hsome. exact Hsome.
  - intros Hok. destruct e as [n tag parent]. cbn in *.
    case_bool_decide; [tauto | reflexivity].
  - rewrite Hhead, head_None. split.
    + intros Hnil. apply Forall_forall. intros a Ha.
      destruct (decide (tagName a ∈ excludeTags)) as [Hin | Hout]; [exact Hin |].
      assert (Hfa : a ∈ filter (λ a, tagName a ∉ excludeTags)
                          (ancestors_or_self e))
        by (apply list_elem_of_filter; split; assumption).
      rewrite Hnil in Hfa. inversion Hfa.
    + intros Hall.
      destruct (filter (λ a, tagName a ∉ excludeTags) (ancestors_or_self e))
        as [| a rest] eqn:Hfilter; [reflexivity |].
      assert (Hfa : a ∈ filter (λ a, tagName a ∉ excludeTags)
                          (ancestors_or_self e))
        by (rewrite Hfilter; left).
      apply list_elem_of_filter in Hfa as [Hout Ha].
      rewrite Forall_forall in Hall. destruct (Hout (Hall a Ha)).
Qed.

(** A click on the [DIV] inside [BODY] inside [HTML] climbs nowhere; a
    click on [BODY] finds nothing to activate. *)
Lemma closest_included_nearest_witness :
  closest_included div_el = Some div_el ∧ closest_included body_el = None.
Proof.
  destruct (closest_included_nearest div_el) as (_ & _ & Hself & _).
  destruct (closest_included_nearest body_el) as (_ & _ & _ & Hnone).
  split.
  - apply Hself. apply (bool_decide_unpack _). vm_compute. exact I.
  - apply Hnone. repeat constructor; apply (bool_decide_unpack _);
      vm_compute; exact I.
Defined.

(** ** What a frame writes and what it keeps *)

Section FrameWrites.
Context {N : Type} `{!JsNumber N}.
Implicit Types (css : gmap positive (gmap string (CssValue N))).
Implicit Types (b : Body N) (bs : list (Body N)) (dt page_w page_h : N).

Lemma style_of_set_other_node css e e' prop prop' v :
  node e ≠ node e' →
  style_of (set_style e' prop v css) e prop' = style_of css e prop'.
Proof.
  intros Hne. unfold style_of, set_style.
  rewrite lookup_insert_ne by congruence. reflexivity.
Qed.

Lemma write_back_written b css :
  style_of (write_back b css) (el b) "left" = Some (Px (Math_round (x b)))
  ∧ style_of (write_back b css) (el b) "top" = Some (Px (Math_round (y b))).
Proof.
  unfold write_back. cbv zeta. split.
  - rewrite style_of_set_other_prop by discriminate. apply style_of_set_eq.
  - apply style_of_set_eq.
Qed.

Lemma write_back_kept b css e prop :
  node e ≠ node (el b) ∨ (prop ≠ "left" ∧ prop ≠ "top") →
  style_of (write_back b css) e prop = style_of css e prop.
Proof.
  intros Hother. unfold write_back. cbv zeta.
  destruct (decide (node e = node (el b))) as [Heq | Hne].
  - destruct Hother as [? | [Hl Ht]]; [contradiction |].
    unfold style_of. rewrite Heq. fold (style_of
      (set_style (el b) "top" (Px (Math_round (y b)))
         (set_style (el b) "left" (Px (Math_round (x b))) css)) (el b) prop).
    rewrite !style_of_set_other_prop by congruence. reflexivity.
  - rewrite !style_of_set_other_node by exact Hne. reflexivity.
Qed.

Lemma body_nodes_step dt page_w page_h bs :
  body_nodes (step_body dt page_w page_h <$> bs) = body_nodes bs.
Proof.
  unfold body_nodes. rewrite <- list_fmap_compose.
  apply list_fmap_ext. intros i b _. cbn.
  now destruct (step_body_size dt page_w page_h b) as (_ & _ & ->).
Qed.

Lemma step_bodies_kept dt page_w page_h bs css e prop :
  node e ∉ body_nodes bs ∨ (prop ≠ "left" ∧ prop ≠ "top") →
  style_of (step_bodies dt page_w page_h bs css).2 e prop = style_of css e prop.
Proof.
  revert css. induction bs as [| b rest IH]; intros css Hother;
    [reflexivity |].
  cbn [step_bodies].
  specialize (IH (write_back (step_body dt page_w page_h b) css)).
  destruct (step_bodies dt page_w page_h rest _) as [rest' css'].
  cbn [snd] in *.
  assert (Hel : el (step_body dt page_w page_h b) = el b)
    by apply step_body_size.
  rewrite IH.
  - apply write_back_kept. rewrite Hel.
    destruct Hother as [Hnode | Hprop]; [left | right; exact Hprop].
    intros Heq. apply Hnode. cbn. rewrite Heq. left.
  - destruct Hother as [Hnode | Hprop]; [left | right; exact Hprop].
    intros Hin. apply Hnode. cbn. right. exact Hin.
Qed.

Lemma step_bodies_written dt page_w page_h bs css :
  NoDup (body_nodes bs) →
  Forall (λ b,
            style_of (step_bodies dt page_w page_h bs css).2 (el b) "left"
              = Some (Px (Math_round (x b)))
            ∧ style_of (step_bodies dt page_w page_h bs css).2 (el b) "top"
              = Some (Px (Math_round (y b))))
    (step_bodies dt page_w page_h bs css).1.
Proof.
  revert css. induction bs as [| b rest IH]; intros css Hnodup;
    [constructor |].
  cbn in Hnodup. apply NoDup_cons in Hnodup as [Hfresh Hrest].
  cbn [step_bodies].
  specialize (IH (write_back (step_body dt page_w page_h b) css) Hrest).
  pose proof (step_bodies_kept dt page_w page_h rest
                (write_back (step_body dt page_w page_h b) css)) as Hkept.
  destruct (step_bodies dt page_w page_h rest _) as [rest' css'].
  cbn [fst snd] in *.
  assert (Hel : el (step_body dt page_w page_h b) = el b)
    by apply step_body_size.
  constructor; [| exact IH].
  rewrite !Hkept by (left; rewrite Hel; exact Hfresh).
  apply write_back_written.
Qed.

End FrameWrites.

(** ** One body per element *)

Section Tidy.
Context {N : Type} `{!JsNumber N}.
Implicit Types (host : Host N) (st : State N) (b : Body N).

Lemma tidy_init (t0 : N) : tidy (init t0).
Proof.
  unfold tidy, init. cbn. split; [constructor |].
  split; [reflexivity | constructor].
Qed.

(** An update of the bodies that keeps their elements and sizes. *)
Lemma tidy_fmap (f : Body N → Body N) st st' :
  (∀ b, el (f b) = el b ∧ w (f b) = w b ∧ h (f b) = h b) →
  bodies st' = f <$> bodies st →
  activeSet st' = activeSet st →
  tidy st → tidy st'.
Proof.
  intros Hf Hbodies Hset (Hnodup & Hactive & Hall).
  assert (Hnodes : body_nodes (bodies st') = body_nodes (bodies st)).
  { rewrite Hbodies. unfold body_nodes. rewrite <- list_fmap_compose.
    apply list_fmap_ext. intros i b _. cbn. now destruct (Hf b) as (-> & _). }
  unfold tidy. rewrite Hnodes, Hset. split; [exact Hnodup |].
  split; [exact Hactive |].
  rewrite Hbodies. apply Forall_fmap. eapply Forall_impl; [exact Hall |].
  intros b Hb. cbn. destruct (Hf b) as (-> & -> & ->). exact Hb.
Qed.

Lemma tidy_step host now st : tidy st → tidy (step host now st).
Proof.
  destruct (step_bodies_of_step host now st) as (Hbodies & _ & Hset).
  apply (tidy_fmap
           (step_body (frame_dt now (last st)) (pageWidth host)
              (pageHeight host)) st (step host now st));
    [| exact Hbodies | exact Hset].
  intros b.
  destruct (step_body_size (frame_dt now (last st)) (pageWidth host)
              (pageHeight host) b) as (Hw & Hh & Hel).
  auto.
Qed.

Lemma tidy_impulse (ox oy : N) st : tidy st → tidy (applyRadialImpulse ox oy st).
Proof.
  apply (tidy_fmap (impulse_body ox oy)); [| reflexivity | reflexivity].
  intros b. repeat split.
Qed.

Lemma tidy_activate host arg st :
  tidy st → tidy (activateElement host arg st).2.
Proof.
  intros Htidy. destruct arg as [e |]; [| exact Htidy].
  unfold activateElement.
  case_bool_decide as Hactive; [exact Htidy |].
  case_bool_decide as Htag; [exact Htidy |].
  destruct (not_rendered (getComputedStyle host e)); [exact Htidy |].
  destruct ((rect_width (getBoundingClientRect host e) === #0)
            || (rect_height (getBoundingClientRect host e) === #0))%js
    eqn:Hsize; [exact Htidy |].
  apply orb_false_iff in Hsize as [Hw Hh].
  destruct Htidy as (Hnodup & Hset & Hall).
  unfold tidy. cbn [snd bodies activeSet].
  unfold body_nodes in *. rewrite fmap_app. cbn [fmap list_fmap el].
  assert (Hfresh : node e ∉ (λ b : Body N, node (el b)) <$> bodies st).
  { intros Hin. apply Hactive. rewrite Hset.
    apply elem_of_list_to_set. exact Hin. }
  split; [| split].
  - apply NoDup_app. split; [exact Hnodup |]. split.
    + intros n Hin Hnew. apply list_elem_of_singleton in Hnew. subst n.
      exact (Hfresh Hin).
    + apply NoDup_singleton.
  - rewrite list_to_set_app_L, Hset. cbn.
    rewrite union_empty_r_L. apply union_comm_L.
  - apply Forall_app. split; [exact Hall |].
    constructor; [| constructor]. cbn. auto.
Qed.

Lemma tidy_click host (e : MouseEvent N) st : tidy st → tidy (on_click host e st).
Proof.
  intros Htidy. unfold on_click. cbv zeta. apply tidy_impulse.
  destruct (closest_included (target e)) as [e' |]; [| exact Htidy].
  apply tidy_activate, Htidy.
Qed.

End Tidy.

Lemma reachable_tidy_aux {N : Type} `{!JsNumber N} (st : State N) :
  reachable st → tidy st.
Proof.
  induction 1 as [t0 | host now st _ IH | host e st _ IH].
  - apply tidy_init.
  - apply tidy_step, IH.
  - apply tidy_click, IH.
Qed.

(** X2.  One body per element.  In every state the page can reach, the
    bodies stand for pairwise distinct elements, [activeSet] holds exactly
    those elements, and no body stands for an element with an excluded tag
    or has a width or height [=== 0]. *)
Theorem reachable_tidy :
  ∀ (N : Type) (JN : JsNumber N) (st : State N),
    reachable st →
    NoDup (body_nodes (bodies st))
    ∧ activeSet st = list_to_set (body_nodes (bodies st))
    ∧ Forall (λ b, (tagName (el b) ∉ excludeTags)
                   ∧ (w b === #0)%js = false ∧ (h b === #0)%js = false)
        (bodies st).
Proof.
  intros N JN st Hreach. exact (reachable_tidy_aux st Hreach).
Qed.

(** In binary64, on the page [host0]: two clicks on the [DIV], a frame
    between them, leave one body, for the [DIV]. *)
Lemma reachable_tidy_witness :
  let click : MouseEvent float := mkMouseEvent div_el (#10)%js (#10)%js in
  let st := on_click host0 click
              (step host0 (#16)%js (on_click host0 click (init (#0)%js))) in
  body_nodes (bodies st) = [node div_el]
  ∧ NoDup (body_nodes (bodies st))
  ∧ activeSet st = list_to_set (body_nodes (bodies st)).
Proof.
  cbv zeta.
  split; [vm_compute; reflexivity |].
  pose proof (reachable_tidy float _ _
    (reach_click host0 (mkMouseEvent div_el (#10)%js (#10)%js) _
       (reach_step host0 (#16)%js _
          (reach_click host0 (mkMouseEvent div_el (#10)%js (#10)%js) _
             (reach_init (#0)%js))))) as (Hnodup & Hset & _).
  split; assumption.
Defined.

Lemma step_unfold {N : Type} `{!JsNumber N} (host : Host N) (now : N)
    (st : State N) :
  let r := step_bodies (frame_dt now (last st)) (pageWidth host)
             (pageHeight host) (bodies st) (styles st) in
  bodies (step host now st) = r.1 ∧ styles (step host now st) = r.2
  ∧ frames_requested (step host now st) = S (frames_requested st).
Proof.
  unfold step. cbv zeta.
  destruct (step_bodies _ _ _ (bodies st) (styles st)) as [bs css].
  repeat split.
Qed.

(** X3.  What a frame writes.  After the frame callback in a reachable
    state, the inline [left] and [top] of every body's element are its
    position of that frame rounded by [Math.round], followed by [px]. *)
Theorem step_writes_positions :
  ∀ (N : Type) (JN : JsNumber N) (host : Host N) (now : N) (st : State N),
    reachable st →
    Forall (λ b,
              style_of (styles (step host now st)) (el b) "left"
                = Some (Px (Math_round (x b)))
              ∧ style_of (styles (step host now st)) (el b) "top"
                = Some (Px (Math_round (y b))))
      (bodies (step host now st)).
Proof.
  intros N JN host now st Hreach.
  destruct (reachable_tidy_aux st Hreach) as (Hnodup & _).
  destruct (step_unfold host now st) as (-> & -> & _).
  apply step_bodies_written, Hnodup.
Qed.

(** In binary64, on the page [host0]: after a click on the [DIV] and a
    frame 16 ms later, its [left] and [top] are the rounded position. *)
Lemma step_writes_positions_witness :
  let click : MouseEvent float := mkMouseEvent div_el (#10)%js (#10)%js in
  let st' := step host0 (#16)%js (on_click host0 click (init (#0)%js)) in
  length (bodies st') = 1%nat
  ∧ Forall (λ b, style_of (styles st') (el b) "left"
                   = Some (Px (Math_round (x b)))
                 ∧ style_of (styles st') (el b) "top"
                   = Some (Px (Math_round (y b))))
      (bodies st').
Proof.
  cbv zeta. split; [vm_compute; reflexivity |].
  apply (step_writes_positions float _ host0 (#16)%js).
  apply reach_click, reach_init.
Defined.

(** X4.  What a frame keeps.  The frame callback keeps the number of
    bodies and [activeSet], stores [now] in [last] and asks for one more
    frame; the body at each index keeps its element, width and height; and
    the only inline styles it changes are [left] and [top] of elements
    that bodies stand for. *)
Theorem step_keeps :
  ∀ (N : Type) (JN : JsNumber N) (host : Host N) (now : N) (st : State N),
    let st' := step host now st in
    length (bodies st') = length (bodies st)
    ∧ activeSet st' = activeSet st
    ∧ last st' = now
    ∧ frames_requested st' = S (frames_requested st)
    ∧ (∀ i b, bodies st !! i = Some b →
         ∃ b', bodies st' !! i = Some b'
               ∧ el b' = el b ∧ w b' = w b ∧ h b' = h b)
    ∧ (∀ e prop,
         node e ∉ body_nodes (bodies st) ∨ (prop ≠ "left" ∧ prop ≠ "top") →
         style_of (styles st') e prop = style_of (styles st) e prop).
Proof.
  intros N JN host now st st'. subst st'.
  destruct (step_bodies_of_step host now st) as (Hbodies & Hlast & Hset).
  destruct (step_unfold host now st) as (_ & Hstyles & Hframes).
  split; [rewrite Hbodies; apply length_fmap |].
  split; [exact Hset |]. split; [exact Hlast |]. split; [exact Hframes |].
  split.
  - intros i b Hb. rewrite Hbodies, list_lookup_fmap, Hb. cbn.
    eexists. split; [reflexivity |].
    destruct (step_body_size (frame_dt now (last st)) (pageWidth host)
                (pageHeight host) b) as (Hw & Hh & Hel).
    auto.
  - intros e prop Hother. rewrite Hstyles. apply step_bodies_kept, Hother.
Qed.

(** In binary64: the frame after a click on the [DIV] keeps the
    [position: absolute] that the activation wrote. *)
Lemma step_keeps_witness :
  let click : MouseEvent float := mkMouseEvent div_el (#10)%js (#10)%js in
  let st := on_click host0 click (init (#0)%js) in
  style_of (styles (step host0 (#16)%js st)) div_el "position"
  = Some (Keyword "absolute").
Proof.
  cbv zeta.
  destruct (step_keeps float _ host0 (#16)%js
              (on_click host0 (mkMouseEvent div_el (#10)%js (#10)%js)
                 (init (#0)%js)))
    as (_ & _ & _ & _ & _ & Hkept).
  rewrite Hkept by (right; split; discriminate).
  vm_compute. reflexivity.
Defined.

(** ** What an activation makes *)

Lemma detach_written {N : Type} `{!JsNumber N} (host : Host N) (e : Element)
    (rect : DOMRect N) css :
  style_of (detach host e rect css) e "position" = Some (Keyword "absolute")
  ∧ style_of (detach host e rect css) e "left"
    = Some (Px (rect_left rect + scrollX host)%js)
  ∧ style_of (detach host e rect css) e "top"
    = Some (Px (rect_top rect + scrollY host)%js)
  ∧ style_of (detach host e rect css) e "width" = Some (Px (rect_width rect))
  ∧ style_of (detach host e rect css) e "height"
    = Some (Px (rect_height rect)).
Proof.
  unfold detach. cbv zeta.
  repeat split;
    rewrite !style_of_set_other_prop by discriminate; apply style_of_set_eq.
Qed.

Lemma detach_kept {N : Type} `{!JsNumber N} (host : Host N) (e e' : Element)
    (rect : DOMRect N) css prop :
  node e' ≠ node e →
  style_of (detach host e rect css) e' prop = style_of css e' prop.
Proof.
  intros Hne. unfold detach. cbv zeta.
  rewrite !style_of_set_other_node by exact Hne. reflexivity.
Qed.

Lemma rejected_or_not {N : Type} `{!JsNumber N} (host : Host N)
    (e : Element) (st : State N) :
  rejected host e st ∨ ¬ rejected host e st.
Proof.
  unfold rejected.
  destruct (decide (node e ∈ activeSet st)); [tauto |].
  destruct (decide (tagName e ∈ excludeTags)); [tauto |].
  destruct (decide (display (getComputedStyle host e) = "none")); [tauto |].
  destruct (decide (visibility (getComputedStyle host e) = "hidden"));
    [tauto |].
  destruct (decide (opacity (getComputedStyle host e) = "0")); [tauto |].
  destruct (rect_width (getBoundingClientRect host e) === #0)%js; [tauto |].
  destruct (rect_height (getBoundingClientRect host e) === #0)%js; [tauto |].
  right. intuition discriminate.
Qed.



(** ** A click: activation, then the impulse *)

(** X6.  A click activates first and pushes second.  When the nearest
    element with no excluded tag is accepted, its new body is appended and
    then receives the impulse of that same click together with the older
    bodies.  When the climb finds nothing or the element is rejected, the
    click is the impulse pass alone.  Either way a click adds at most one
    body and removes none. *)
Theorem click_activates_then_pushes :
  ∀ (N : Type) (JN : JsNumber N) (host : Host N) (ev : MouseEvent N)
    (st : State N),
    let ox := clientX ev in
    let oy := clientY ev in
    (∀ e, closest_included (target ev) = Some e → ¬ rejected host e st →
       ∃ b, (activateElement host (Some e) st).1 = Some b
            ∧ bodies (on_click host ev st)
              = (impulse_body ox oy <$> bodies st) ++ [impulse_body ox oy b]
            ∧ activeSet (on_click host ev st) = {[node e]} ∪ activeSet st)
    ∧ (closest_included (target ev) = None
       ∨ (∃ e, closest_included (target ev) = Some e ∧ rejected host e st) →
       on_click host ev st = applyRadialImpulse ox oy st)
    ∧ (length (bodies st) ≤ length (bodies (on_click host ev st))
       ∧ length (bodies (on_click host ev st)) ≤ S (length (bodies st))).
Proof.
  intros N JN host ev st ox oy. subst ox oy. split; [| split].
  - intros e Hclimb Hok.
    destruct (activate_accepted host e st Hok) as (b & Hb & _).
    exists b. unfold on_click. cbv zeta. rewrite Hclimb, Hb.
    cbn [fst snd applyRadialImpulse bodies activeSet].
    split; [reflexivity |]. split; [| reflexivity].
    rewrite fmap_app. reflexivity.
  - intros [Hnone | (e & Hclimb & Hrej)]; unfold on_click; cbv zeta.
    + now rewrite Hnone.
    + now rewrite Hclimb, (activate_rejected host e st Hrej).
  - unfold on_click. cbv zeta.
    cbn [applyRadialImpulse bodies]. rewrite length_fmap.
    destruct (closest_included (target ev)) as [e |]; [| lia].
    destruct (rejected_or_not host e st) as [Hrej | Hok].
    + rewrite (activate_rejected host e st Hrej). cbn. lia.
    + destruct (activate_accepted host e st Hok) as (b & Hb & _).
      rewrite Hb. cbn. rewrite length_app. cbn. lia.
Qed.

(** In binary64, on the page [host0]: the click at (10, 10) that turns the
    [DIV] into the falling box also pushes it, right and down. *)
Lemma click_activates_then_pushes_witness :
  let click : MouseEvent float := mkMouseEvent div_el (#10)%js (#10)%js in
  bodies (on_click host0 click (init (#0)%js))
  = [impulse_body (#10)%js (#10)%js falling]
  ∧ (vx (@falling float _)
       <? vx (impulse_body (#10)%js (#10)%js (@falling float _)))%js = true.
Proof.
  cbv zeta. split; [| vm_compute; reflexivity].
  destruct (click_activates_then_pushes float _ host0
              (mkMouseEvent div_el (#10)%js (#10)%js) (init (#0)%js))
    as (Hnew & _).
  destruct (Hnew div_el) as (b & Hb & Hbodies & _).
  - vm_compute. reflexivity.
  - intros Hrej. apply (activate_rejected host0 div_el (init (#0)%js)) in Hrej.
    vm_compute in Hrej. discriminate.
  - rewrite Hbodies. cbn [fmap list_fmap init bodies app].
    assert (Hfall : (activateElement host0 (Some div_el)
                       (init (#0)%js : State float)).1 = Some falling)
      by (vm_compute; reflexivity).
    rewrite Hfall in Hb. injection Hb as <-. reflexivity.
Defined.

(** ** Rest and speed in exact arithmetic *)

Section RestReal.
Local Open Scope R_scope.
Implicit Types (b : Body R) (dt page_w page_h : R).

Lemma resting_integrated dt page_h b :
  y b + h b = page_h → vy b = 0 →
  vy (integrate dt b) = 2000 * dt
  ∧ y (integrate dt b) + h (integrate dt b) = page_h + 2000 * dt * dt
  ∧ (- vy (integrate dt b) * BOUNCE)%js = - (1200 * dt).
Proof.
  intros Hfloor Hstill. destruct b as [e bx by0 bvx bvy bw bh].
  cbn in Hfloor, Hstill. subst bvy. real_unfold. repeat split; lra.
Qed.

Lemma resting_vertical dt page_h b :
  y b + h b = page_h → vy b = 0 → 0 <= dt →
  y (floor_collision page_h (integrate dt b)) = y b
  ∧ (dt < 1 / 40 → vy (floor_collision page_h (integrate dt b)) = 0)
  ∧ (1 / 40 <= dt →
     vy (floor_collision page_h (integrate dt b)) = - (1200 * dt)).
Proof.
  intros Hfloor Hstill Hdt.
  destruct (resting_integrated dt page_h b Hfloor Hstill)
    as (Hvy & Hsum & Hrefl).
  destruct (Req_dec_T dt 0) as [-> | Hnz].
  - assert (Hmiss : (y (integrate 0 b) + h (integrate 0 b) >? page_h)%js
                    = false).
    { apply real_lt_false.
      change (y (integrate 0 b) + h (integrate 0 b) <= page_h). lra. }
    rewrite (floor_collision_miss page_h _ Hmiss).
    split; [real_unfold; lra |]. split; intros; [rewrite Hvy |]; lra.
  - assert (Hhit : (y (integrate dt b) + h (integrate dt b) >? page_h)%js
                   = true).
    { apply real_lt_true.
      change (page_h < y (integrate dt b) + h (integrate dt b)). nra. }
    rewrite (floor_collision_hit page_h _ Hhit). cbn [y vy].
    rewrite Hrefl.
    change (h (integrate dt b)) with (h b).
    split; [change (page_h - h b = y b); lra |].
    assert (Habs : Rabs (- (1200 * dt)) = 1200 * dt)
      by (rewrite Rabs_Ropp; apply Rabs_pos_eq; lra).
    change (Math_abs (- (1200 * dt))) with (Rabs (- (1200 * dt))).
    rewrite Habs.
    split; intros Hcmp;
      destruct (num_lt (1200 * dt) (num_of_Z 30)) eqn:Ht;
      try reflexivity; exfalso.
    + apply real_lt_false in Ht. change (30 <= 1200 * dt) in Ht. lra.
    + apply real_lt_true in Ht. change (1200 * dt < 30) in Ht. lra.
Qed.

End RestReal.

(** X7.  A body at rest on the floor, in exact arithmetic.  For a body
    with [y + h = pageHeight] and [vy = 0], a frame with [0 <= dt < 0.025]
    leaves it at rest: same [y], [vy = 0].  A frame with [dt >= 0.025]
    leaves it on the floor with [vy = -1200 * dt]: below 25 ms the bounce
    of one frame of gravity is under the threshold of 30, from 25 ms on it
    is not, and the cap of line 18 lets [dt] reach 0.05. *)
Theorem resting_body :
  ∀ (dt page_w page_h : R) (b : Body R),
    (y b + h b = page_h)%R → vy b = 0%R → (0 <= dt)%R →
    y (step_body dt page_w page_h b) = y b
    ∧ ((dt < 1 / 40)%R → vy (step_body dt page_w page_h b) = 0%R)
    ∧ ((1 / 40 <= dt)%R →
       vy (step_body dt page_w page_h b) = (- (1200 * dt))%R)
    ∧ (∀ now last0 : R,
         (25 <= now - last0)%R → (1 / 40 <= frame_dt now last0)%R).
Proof.
  intros dt page_w page_h b Hfloor Hstill Hdt.
  destruct (step_body_vertical dt page_w page_h b) as [-> ->].
  destruct (resting_vertical dt page_h b Hfloor Hstill Hdt)
    as (Hy & Hrest & Hhop).
  split; [exact Hy |]. split; [exact Hrest |]. split; [exact Hhop |].
  intros now last0 Hgap. rewrite frame_dt_real. unfold Rmin.
  destruct (Rle_dec (5 / 100) ((now - last0) / 1000)); lra.
Qed.

(** The box resting on a page 600 high: a frame of 1/64 s keeps it at
    rest, a frame of 1/32 s sends it up at 37.5 px/s. *)
Lemma resting_body_witness :
  let b : Body R := mkBody div_el 100%R 550%R 0%R 0%R 50%R 50%R in
  vy (step_body (1 / 64)%R 800%R 600%R b) = 0%R
  ∧ vy (step_body (1 / 32)%R 800%R 600%R b) = (- (1200 * (1 / 32)))%R.
Proof.
  cbv zeta. split.
  - destruct (resting_body (1 / 64)%R 800%R 600%R
                (mkBody div_el 100%R 550%R 0%R 0%R 50%R 50%R))
      as (_ & Hrest & _); [cbn; lra | reflexivity | lra |].
    apply Hrest. lra.
  - destruct (resting_body (1 / 32)%R 800%R 600%R
                (mkBody div_el 100%R 550%R 0%R 0%R 50%R 50%R))
      as (_ & _ & Hhop & _); [cbn; lra | reflexivity | lra |].
    apply Hhop. lra.
Defined.

(** Case analysis on the signs under [Rabs] in the goal. *)
Ltac rabs_cases :=
  unfold Rabs;
  repeat match goal with
    | |- context [Rcase_abs ?a] => destruct (Rcase_abs a)
    end.

(** X8.  Collisions only take speed away, in exact arithmetic.  For any
    [dt] and page bounds, the horizontal speed after a step is at most the
    horizontal speed before it, and the vertical speed after a step is at
    most that of the body once gravity has been added: each contact
    multiplies a speed by 0.8 or by -0.6, or sets it to 0. *)
Theorem step_never_speeds_up :
  ∀ (dt page_w page_h : R) (b : Body R),
    (Rabs (vx (step_body dt page_w page_h b)) <= Rabs (vx b))%R
    ∧ (Rabs (vy (step_body dt page_w page_h b))
       <= Rabs (vy b + 2000 * dt))%R.
Proof.
  intros dt page_w page_h [e bx by0 bvx bvy bw bh]. split.
  - real_unfold. real_cases; rabs_cases; lra.
  - real_unfold. real_cases; rabs_cases; lra.
Qed.

(** ** The strength of the impulse in exact arithmetic *)

(** X9.  The cap of line 104 never applies, and the push is small.  In
    exact arithmetic, for every body and origin, the force is
    [60000 / (dist + 20)], strictly between 0 and 3000; when the origin is
    not the centre of the body, the change of velocity has length
    [force / 1000]; in every case its length is below 3. *)
Theorem impulse_strength :
  ∀ (ox oy : R) (b : Body R),
    let dx := (x b + w b / 2 - ox)%R in
    let dy := (y b + h b / 2 - oy)%R in
    let force := impulse_force (impulse_dist dx dy) in
    let dvx := (vx (impulse_body ox oy b) - vx b)%R in
    let dvy := (vy (impulse_body ox oy b) - vy b)%R in
    force = (60000 / (impulse_dist dx dy + 20))%R
    ∧ (0 < force < 3000)%R
    ∧ (R_sqrt.sqrt (dx * dx + dy * dy) ≠ 0%R →
       (dvx * dvx + dvy * dvy = (force / 1000) * (force / 1000))%R)
    ∧ (dvx * dvx + dvy * dvy < 3 * 3)%R.
Proof.
  intros ox oy b dx dy force dvx dvy.
  pose proof (impulse_dist_pos dx dy) as Hdist.
  destruct (impulse_force_below_cap (impulse_dist dx dy) Hdist)
    as (Hforce & Hpos & Hcap).
  fold force in Hforce, Hpos, Hcap.
  split; [exact Hforce |]. split; [split; assumption |].
  assert (Hdvx : dvx = (dx / impulse_dist dx dy * (force / 1000))%R)
    by (subst dvx; change (vx (impulse_body ox oy b))
          with (vx b + dx / impulse_dist dx dy * (force / 1000))%R; lra).
  assert (Hdvy : dvy = (dy / impulse_dist dx dy * (force / 1000))%R)
    by (subst dvy; change (vy (impulse_body ox oy b))
          with (vy b + dy / impulse_dist dx dy * (force / 1000))%R; lra).
  assert (Hsq : (R_sqrt.sqrt (dx * dx + dy * dy)
                 * R_sqrt.sqrt (dx * dx + dy * dy) = dx * dx + dy * dy)%R)
    by (apply sqrt_sqrt; nra).
  destruct (impulse_dist_real dx dy) as [Hnz Hz].
  assert (Hlen : R_sqrt.sqrt (dx * dx + dy * dy) ≠ 0%R →
                 (dvx * dvx + dvy * dvy
                  = (force / 1000) * (force / 1000))%R).
  { intros Hne. rewrite Hdvx, Hdvy, (Hnz Hne).
    set (s := R_sqrt.sqrt (dx * dx + dy * dy)) in *.
    replace (dx / s * (force / 1000) * (dx / s * (force / 1000))
             + dy / s * (force / 1000) * (dy / s * (force / 1000)))%R
      with ((dx * dx + dy * dy) / (s * s)
            * ((force / 1000) * (force / 1000)))%R by (field; exact Hne).
    rewrite <- Hsq. field. exact Hne. }
  split; [exact Hlen |].
  destruct (Req_dec_T (R_sqrt.sqrt (dx * dx + dy * dy)) 0) as [Heq | Hne].
  - rewrite Heq in Hsq.
    assert (Hdx : dx = 0%R) by nra. assert (Hdy : dy = 0%R) by nra.
    rewrite Hdvx, Hdvy, Hdx, Hdy. unfold Rdiv. rewrite !Rmult_0_l. lra.
  - rewrite (Hlen Hne). nra.
Qed.

(** The sliver and a click at (0, 1): the square root is 0.5, not 0. *)
Lemma impulse_strength_witness :
  let b : Body R := sliver in
  let dvx := (vx (impulse_body 0%R 1%R b) - vx b)%R in
  let dvy := (vy (impulse_body 0%R 1%R b) - vy b)%R in
  (dvx * dvx + dvy * dvy < 3 * 3)%R
  ∧ (dvx * dvx + dvy * dvy
     = impulse_force (impulse_dist (1 / 2)%R 0%R) / 1000
       * (impulse_force (impulse_dist (1 / 2)%R 0%R) / 1000))%R.
Proof.
  cbv zeta.
  destruct (impulse_strength 0%R 1%R sliver) as (_ & _ & Hlen & Hsmall).
  split; [exact Hsmall |].
  assert (Hdx : (x (@sliver R _) + w (@sliver R _) / 2 - 0)%R = (1 / 2)%R)
    by (real_unfold; lra).
  assert (Hdy : (y (@sliver R _) + h (@sliver R _) / 2 - 1)%R = 0%R)
    by (real_unfold; lra).
  rewrite Hdx, Hdy in Hlen. apply Hlen.
  replace (1 / 2 * (1 / 2) + 0 * 0)%R with ((1 / 2) * (1 / 2))%R by lra.
  rewrite sqrt_square by lra. lra.
Defined.

(** ** A frame with no time elapsed, in exact arithmetic *)

Lemma frame_dt_same_time (now : R) : frame_dt now now = 0%R.
Proof.
  rewrite frame_dt_real. unfold Rmin.
  destruct (Rle_dec (5 / 100) ((now - now) / 1000)); lra.
Qed.

Lemma step_body_zero_dt (page_w page_h : R) (b : Body R) :
  (0 <= x b)%R → (x b + w b <= page_w)%R → (y b + h b <= page_h)%R →
  step_body 0%R page_w page_h b = b.
Proof.
  destruct b as [e bx by0 bvx bvy bw bh]. cbn [x y w h].
  intros Hleft Hright Hfloor.
  real_unfold. real_cases. f_equal; lra.
Qed.

(** X10.  A frame with no time elapsed moves nothing, in exact arithmetic.
    If every body is within the page bounds the host reports and the time
    stamp equals [last], the frame callback returns the bodies as they
    were.  So a second callback with the same time stamp and page, after
    one that left every body no wider than the page, changes no body. *)
Theorem step_same_time_still :
  ∀ (host : Host R) (now : R) (st : State R),
    (Forall (λ b : Body R,
               (0 <= x b)%R ∧ (x b + w b <= pageWidth host)%R
               ∧ (y b + h b <= pageHeight host)%R) (bodies st) →
     now = last st →
     bodies (step host now st) = bodies st)
    ∧ (Forall (λ b : Body R, (w b <= pageWidth host)%R) (bodies st) →
       bodies (step host now (step host now st))
       = bodies (step host now st)).
Proof.
  intros host now st.
  assert (Hstill : ∀ st0 : State R,
            Forall (λ b : Body R,
                      (0 <= x b)%R ∧ (x b + w b <= pageWidth host)%R
                      ∧ (y b + h b <= pageHeight host)%R) (bodies st0) →
            now = last st0 →
            bodies (step host now st0) = bodies st0).
  { intros st0 Hin Hnow.
    destruct (step_bodies_of_step host now st0) as (-> & _).
    rewrite <- Hnow, frame_dt_same_time.
    rewrite <- (list_fmap_id (bodies st0)) at 2.
    apply Forall_fmap_ext_1. eapply Forall_impl; [exact Hin |].
    intros b (Hleft & Hright & Hfloor).
    apply step_body_zero_dt; assumption. }
  split; [apply Hstill |].
  intros Hfits. apply Hstill.
  - destruct (step_bodies_of_step host now st) as (-> & _).
    apply Forall_fmap. eapply Forall_impl; [exact Hfits |].
    intros b Hw. cbn.
    destruct (step_body_bounds (frame_dt now (last st)) (pageWidth host)
                (pageHeight host) b) as (Hfloor & Hright & Hleft).
    destruct (step_body_size (frame_dt now (last st)) (pageWidth host)
                (pageHeight host) b) as (Hw' & _).
    split; [apply Hleft; rewrite Hw'; exact Hw |].
    split; assumption.
  - symmetry. apply step_bodies_of_step.
Qed.

(** On the page [host0], the falling box after a frame at 16 ms is not
    moved by a second frame at 16 ms. *)
Lemma step_same_time_still_witness :
  let st : State R := mkState [falling] {[node div_el]} 0%R ∅ 1 in
  bodies (step host0 16%R (step host0 16%R st))
  = bodies (step host0 16%R st).
Proof.
  cbv zeta.
  destruct (step_same_time_still host0 16%R
              (mkState [@falling R _] {[node div_el]} 0%R ∅ 1))
    as (_ & Htwice).
  apply Htwice. constructor; [| constructor].
  cbn [pageWidth host0 scrollWidth innerWidth Math_max real_number num_of_Z].
  unfold Rmax. real_unfold. real_cases.
Defined.

(** ** The styles an activation wrote stay *)

Section Dressed.
Context {N : Type} `{!JsNumber N}.
Implicit Types (host : Host N) (st : State N) (b : Body N).

(** An update of the bodies that keeps their elements and sizes, with
    styles changed on [left] and [top] only. *)
Lemma dressed_fmap (f : Body N → Body N) st st' :
  (∀ b, el (f b) = el b ∧ w (f b) = w b ∧ h (f b) = h b) →
  bodies st' = f <$> bodies st →
  (∀ e prop, prop ≠ "left" ∧ prop ≠ "top" →
     style_of (styles st') e prop = style_of (styles st) e prop) →
  dressed st → dressed st'.
Proof.
  intros Hf Hbodies Hkept Hdressed. unfold dressed in *.
  rewrite Hbodies. apply Forall_fmap. eapply Forall_impl; [exact Hdressed |].
  intros b (Hpos & Hwidth & Hheight). cbn.
  destruct (Hf b) as (-> & -> & ->).
  rewrite !Hkept by (split; discriminate). auto.
Qed.

Lemma dressed_step host now st : dressed st → dressed (step host now st).
Proof.
  destruct (step_bodies_of_step host now st) as (Hbodies & _).
  destruct (step_unfold host now st) as (_ & Hstyles & _).
  apply (dressed_fmap
           (step_body (frame_dt now (last st)) (pageWidth host)
              (pageHeight host)) st (step host now st));
    [| exact Hbodies |].
  - intros b.
    destruct (step_body_size (frame_dt now (last st)) (pageWidth host)
                (pageHeight host) b) as (Hw & Hh & Hel).
    auto.
  - intros e prop Hprop. rewrite Hstyles.
    apply step_bodies_kept. right. exact Hprop.
Qed.

Lemma dressed_impulse (ox oy : N) st :
  dressed st → dressed (applyRadialImpulse ox oy st).
Proof.
  apply (dressed_fmap (impulse_body ox oy)); [| reflexivity | reflexivity].
  intros b. repeat split.
Qed.

Lemma dressed_activate host arg st :
  tidy st → dressed st → dressed (activateElement host arg st).2.
Proof.
  intros (_ & Hset & _) Hdressed. destruct arg as [e |]; [| exact Hdressed].
  destruct (rejected_or_not host e st) as [Hrej | Hok].
  - now rewrite (activate_rejected host e st Hrej).
  - destruct (activate_accepted host e st Hok)
      as (b & Hb & Hel & _ & _ & _ & _ & Hw & Hh).
    rewrite Hb. unfold dressed. cbn [snd bodies styles].
    assert (Hfresh : node e ∉ body_nodes (bodies st)).
    { intros Hin. apply Hok. left. rewrite Hset.
      apply elem_of_list_to_set. exact Hin. }
    apply Forall_app. split.
    + unfold dressed in Hdressed. rewrite Forall_forall in Hdressed.
      apply Forall_forall. intros b0 Hb0.
      assert (Hne : node (el b0) ≠ node e).
      { intros Heq. apply Hfresh. rewrite <- Heq. unfold body_nodes.
        apply (list_elem_of_fmap_2 (λ b : Body N, node (el b))), Hb0. }
      rewrite !detach_kept by exact Hne. apply Hdressed, Hb0.
    + constructor; [| constructor]. rewrite Hel, Hw, Hh.
      destruct (detach_written host e (getBoundingClientRect host e)
                  (styles st)) as (Hpos & _ & _ & Hwidth & Hheight).
      auto.
Qed.

Lemma dressed_click host (e : MouseEvent N) st :
  tidy st → dressed st → dressed (on_click host e st).
Proof.
  intros Htidy Hdressed. unfold on_click. cbv zeta. apply dressed_impulse.
  destruct (closest_included (target e)) as [e' |]; [| exact Hdressed].
  apply dressed_activate; assumption.
Qed.

End Dressed.

(** X11.  The size and positioning an activation wrote are never
    overwritten.  In every state the page can reach, the element of every
    body has inline [position: absolute], and inline [width] and [height]
    equal to the body's [w] and [h]. *)
Theorem reachable_dressed :
  ∀ (N : Type) (JN : JsNumber N) (st : State N),
    reachable st →
    Forall (λ b,
              style_of (styles st) (el b) "position"
                = Some (Keyword "absolute")
              ∧ style_of (styles st) (el b) "width" = Some (Px (w b))
              ∧ style_of (styles st) (el b) "height" = Some (Px (h b)))
      (bodies st).
Proof.
  intros N JN st Hreach. change (dressed st).
  induction Hreach as [t0 | host now st Hr IH | host e st Hr IH].
  - constructor.
  - apply dressed_step, IH.
  - apply dressed_click; [apply reachable_tidy_aux, Hr | exact IH].
Qed.

(** In binary64, on the page [host0]: after a click on the [DIV], a frame
    and another click, the [DIV] is still 50px wide in its inline style. *)
Lemma reachable_dressed_witness :
  let click : MouseEvent float := mkMouseEvent div_el (#10)%js (#10)%js in
  let st := on_click host0 click
              (step host0 (#16)%js (on_click host0 click (init (#0)%js))) in
  Forall (λ b, style_of (styles st) (el b) "width" = Some (Px (w b)))
    (bodies st)
  ∧ style_of (styles st) div_el "width" = Some (Px 50%float).
Proof.
  cbv zeta. split; [| vm_compute; reflexivity].
  eapply Forall_impl.
  - apply (reachable_dressed float _).
    apply reach_click, reach_step, reach_click, reach_init.
  - cbn. intros b (_ & Hwidth & _). exact Hwidth.
Defined.

(** ** A body wider than the page, in exact arithmetic *)

(** X12.  A body wider than the page is pinned to the right edge.  In
    exact arithmetic, when [w > pageWidth], every step ends with
    [x = pageWidth - w], whatever the position and velocity were, and
    with a horizontal speed of at most 0.6 times the one before: the right
    wall fires in every frame. *)
Theorem wide_body_pinned :
  ∀ (dt page_w page_h : R) (b : Body R),
    (page_w < w b)%R →
    x (step_body dt page_w page_h b) = (page_w - w b)%R
    ∧ (Rabs (vx (step_body dt page_w page_h b)) <= 6 / 10 * Rabs (vx b))%R.
Proof.
  intros dt page_w page_h [e bx by0 bvx bvy bw bh]. cbn [w x vx].
  intros Hwide. split.
  - real_unfold. real_cases.
  - real_unfold. real_cases; rabs_cases; lra.
Qed.

(** The box 100 wide on a page 50 wide, moving right at 10 px/s. *)
Lemma wide_body_pinned_witness :
  let b : Body R := mkBody div_el 20%R 0%R 10%R 0%R 100%R 10%R in
  x (step_body (1 / 64)%R 50%R 600%R b) = (50 - 100)%R.
Proof.
  cbv zeta.
  apply (wide_body_pinned (1 / 64)%R 50%R 600%R
           (mkBody div_el 20%R 0%R 10%R 0%R 100%R 10%R)).
  cbn. lra.
Defined.
